(** * Assessment orchestrator: a shallow embedding of the polling script

    The repository holds three revisions of one Node.js script:
    - the earliest revision (first document of [src/unnamed/part_000]),
    - [src/index.js],
    - the later revision (second document of [src/unnamed/part_000]),
      which wraps the crawl and the assistant/write phase in [try]/[catch].

    Each revision defines [crawl(url)] and [run()].  They are embedded in
    the modules [Earliest], [Index] and [Later] below, over a common model
    of JavaScript values, of the three external services (store, crawl
    service, assistant service) and of the effects of a cycle. *)

From Stdlib Require Import String Ascii List ZArith Lia Bool DecimalString.
From ExtLib Require Import Structures.Monad.
Import ListNotations.
Import MonadNotation.
Local Open Scope string_scope.
Local Open Scope monad_scope.
Set Warnings "-register-all".

(* ===================================================================== *)
(** ** JavaScript values *)
(* ===================================================================== *)

(** The values the script handles dynamically: parsed JSON bodies and the
    [undefined] that property access yields.  Numbers are restricted to
    integers: the script only writes the constants 20, 2 and 90, and no
    property below depends on how a fraction prints. *)
Inductive jsval : Type :=
| JUndefined
| JNull
| JBool (b : bool)
| JNum (n : Z)
| JStr (s : string)
| JArr (xs : list jsval)
| JObj (fields : list (string * jsval)).

(** Line feed, the [\n] of the source's string and template literals. *)
Definition nl : string := String (ascii_of_nat 10) EmptyString.

(** The double quote character, which JSON text wraps strings in. *)
Definition dquote : ascii := ascii_of_nat 34.

(** Decimal rendering of an integer, as [String(n)] prints it. *)
Definition Z_to_string (n : Z) : string :=
  NilZero.string_of_int (Z.to_int n).

(** [xs.join(sep)] on an array whose elements are already strings. *)
Fixpoint join (sep : string) (xs : list string) : string :=
  match xs with
  | [] => ""
  | [x] => x
  | x :: rest => x ++ sep ++ join sep rest
  end.

(** JavaScript's ToString, which a template literal applies to each
    interpolated value.  An array prints its elements joined by commas,
    [null] and [undefined] elements as the empty string; an object prints
    as [[object Object]]. *)
Fixpoint to_string (v : jsval) : string :=
  match v with
  | JUndefined => "undefined"
  | JNull => "null"
  | JBool true => "true"
  | JBool false => "false"
  | JNum n => Z_to_string n
  | JStr s => s
  | JArr xs =>
      join ","
        (map (fun x => match x with
                       | JUndefined | JNull => ""
                       | _ => to_string x
                       end) xs)
  | JObj _ => "[object Object]"
  end.

(** ToBoolean: what [||] and [!] test. *)
Definition truthy (v : jsval) : bool :=
  match v with
  | JUndefined | JNull => false
  | JBool b => b
  | JNum n => negb (n =? 0)%Z
  | JStr s => negb (String.eqb s "")
  | JArr _ | JObj _ => true
  end.

(** [a || b] *)
Definition js_or (a b : jsval) : jsval := if truthy a then a else b.

(** [Array.isArray(v)] *)
Definition isArray (v : jsval) : bool :=
  match v with JArr _ => true | _ => false end.

(** Own property lookup in an object, first binding first. *)
Fixpoint lookup (k : string) (fields : list (string * jsval)) : jsval :=
  match fields with
  | [] => JUndefined
  | (k', v) :: rest => if String.eqb k k' then v else lookup k rest
  end.

(* ===================================================================== *)
(** ** Exceptions and results *)
(* ===================================================================== *)

(** A thrown error, as far as the script looks at it: the [catch] blocks
    read [err.response?.data] and [err.message]. *)
Record Exn : Type := mkExn {
  exn_response_data : jsval;
  exn_message : string
}.

(** The runtime's TypeError: it has no [response].  The message text is
    engine specific and nothing depends on it. *)
Definition TypeError (what : string) : Exn :=
  mkExn JUndefined ("TypeError: " ++ what).

(** [err.response?.data || err.message], the payload of the logged line. *)
Definition err_payload (err : Exn) : jsval :=
  js_or (exn_response_data err) (JStr (exn_message err)).

(** The result of an expression that may throw. *)
Inductive Result (A : Type) : Type :=
| Returns (a : A)
| Throws (e : Exn).
Arguments Returns {A} a.
Arguments Throws {A} e.

(** [v.k] for the property names the script reads ([pages], [title],
    [url], [text], [data], [content], [value]).  None of them names a
    member of a built-in prototype, so on anything but an object with that
    own property the access yields [undefined]; on [null] and [undefined]
    it throws. *)
Definition get_prop (v : jsval) (k : string) : Result jsval :=
  match v with
  | JUndefined | JNull =>
      Throws (TypeError ("cannot read property " ++ k))
  | JObj fields => Returns (lookup k fields)
  | _ => Returns JUndefined
  end.

(** [v[0]]: the first element of an array, the first character of a
    string (only its being a string can be observed by the script), the
    property ["0"] of an object, [undefined] on other primitives; throws
    on [null] and [undefined]. *)
Definition get_first (v : jsval) : Result jsval :=
  match v with
  | JUndefined | JNull => Throws (TypeError "cannot read property 0")
  | JArr xs => Returns (match xs with x :: _ => x | [] => JUndefined end)
  | JStr (String c _) => Returns (JStr (String c EmptyString))
  | JObj fields => Returns (lookup "0" fields)
  | _ => Returns JUndefined
  end.

(** [v?.[0]]: optional chaining short-circuits to [undefined] on [null]
    and [undefined] and never throws. *)
Definition opt_first (v : jsval) : jsval :=
  match get_first v with Returns x => x | Throws _ => JUndefined end.

(** [v?.k] *)
Definition opt_prop (v : jsval) (k : string) : jsval :=
  match get_prop v k with Returns x => x | Throws _ => JUndefined end.

(* ===================================================================== *)
(** ** JSON.stringify *)
(* ===================================================================== *)

(** A hexadecimal digit, lower case. *)
Definition hex_digit (n : nat) : ascii :=
  match n with
  | 0 => "0" | 1 => "1" | 2 => "2" | 3 => "3" | 4 => "4" | 5 => "5"
  | 6 => "6" | 7 => "7" | 8 => "8" | 9 => "9" | 10 => "a" | 11 => "b"
  | 12 => "c" | 13 => "d" | 14 => "e" | _ => "f"
  end%char.

(** One character of a string inside JSON text: the quote and the
    backslash are escaped, control characters print as their short escape
    or as [\u00XX], every other byte is copied. *)
Definition json_escape_char (c : ascii) : string :=
  let n := nat_of_ascii c in
  let bs := String "\" EmptyString in
  if Nat.eqb n 34 then bs ++ String dquote EmptyString
  else if Nat.eqb n 92 then bs ++ bs
  else if Nat.eqb n 8 then bs ++ "b"
  else if Nat.eqb n 9 then bs ++ "t"
  else if Nat.eqb n 10 then bs ++ "n"
  else if Nat.eqb n 12 then bs ++ "f"
  else if Nat.eqb n 13 then bs ++ "r"
  else if Nat.ltb n 32 then
    bs ++ "u00" ++ String (hex_digit (n / 16)) (String (hex_digit (n mod 16)) EmptyString)
  else String c EmptyString.

(** The characters of a string, escaped. *)
Fixpoint json_escape (s : string) : string :=
  match s with
  | EmptyString => ""
  | String c rest => json_escape_char c ++ json_escape rest
  end.

(** A string as JSON text, between double quotes. *)
Definition json_quote (s : string) : string :=
  String dquote (json_escape s) ++ String dquote EmptyString.

(** The text of a value other than [undefined].  Inside an array
    [undefined] prints as [null]; inside an object a property whose value
    is [undefined] is left out. *)
Fixpoint json_text (v : jsval) : string :=
  match v with
  | JUndefined => "null"
  | JNull => "null"
  | JBool true => "true"
  | JBool false => "false"
  | JNum n => Z_to_string n
  | JStr s => json_quote s
  | JArr xs => "[" ++ join "," (map json_text xs) ++ "]"
  | JObj fields =>
      "{" ++ join ","
        ((fix props (fs : list (string * jsval)) : list string :=
            match fs with
            | [] => []
            | (_, JUndefined) :: rest => props rest
            | (k, x) :: rest => (json_quote k ++ ":" ++ json_text x) :: props rest
            end) fields) ++ "}"
  end.

(** [JSON.stringify(v)]: [undefined] for [undefined], the JSON text
    otherwise. *)
Definition JSON_stringify (v : jsval) : jsval :=
  match v with
  | JUndefined => JUndefined
  | _ => JStr (json_text v)
  end.

(* ===================================================================== *)
(** ** Data model: the rows of the three tables *)
(* ===================================================================== *)

(** A row of [CompanyAssessmentTrigger].  The text columns are strings;
    [supplemental_links] is a structured value that the script only
    serializes. *)
Module Trigger.
Record t : Type := mk {
  id : Z;
  status : string;
  investor_name : string;
  investor_site : string;
  company_name : string;
  company_url : string;
  context : string;
  supplemental_links : jsval
}.
End Trigger.

(** A row of [CompanyAssessments], as [run] builds it. *)
Module Report.
Record t : Type := mk {
  investor_name : string;
  investor_site : string;
  company_name : string;
  company_url : string;
  context : string;
  report_json : jsval
}.
End Report.

(** A row of [AuditLogs], as [run] builds it. *)
Module Audit.
Record t : Type := mk {
  action : string;
  source_url : string;
  confidence_score : Z;
  details : string
}.
End Audit.

(* ===================================================================== *)
(** ** The store behind the Supabase client *)
(* ===================================================================== *)

(** The three tables the script names.  The store is an external service;
    this is the behaviour the script's queries ask of it: a filtered read,
    inserts that append a row, an update by [id]. *)
Record Store : Type := mkStore {
  CompanyAssessmentTrigger : list Trigger.t;
  CompanyAssessments : list Report.t;
  AuditLogs : list Audit.t
}.

(** [status == 'queued'] *)
Definition is_queued (t : Trigger.t) : bool :=
  String.eqb (Trigger.status t) "queued".

(** [.select('*').eq('status', 'queued').limit(1)]: the first queued row in
    the store's own order, if there is one. *)
Definition select_queued (s : Store) : list Trigger.t :=
  firstn 1 (filter is_queued (CompanyAssessmentTrigger s)).

(** The row [t] with [status] set to [st]. *)
Definition set_status (st : string) (t : Trigger.t) : Trigger.t :=
  Trigger.mk (Trigger.id t) st (Trigger.investor_name t)
    (Trigger.investor_site t) (Trigger.company_name t)
    (Trigger.company_url t) (Trigger.context t)
    (Trigger.supplemental_links t).

(** [.update({ status: st }).eq('id', i)] *)
Definition update_status (i : Z) (st : string) (s : Store) : Store :=
  mkStore
    (map (fun t => if (Trigger.id t =? i)%Z then set_status st t else t)
       (CompanyAssessmentTrigger s))
    (CompanyAssessments s) (AuditLogs s).

(** [from('CompanyAssessments').insert([r])] *)
Definition insert_report (r : Report.t) (s : Store) : Store :=
  mkStore (CompanyAssessmentTrigger s) (CompanyAssessments s ++ [r])
    (AuditLogs s).

(** [from('AuditLogs').insert([a])] *)
Definition insert_audit (a : Audit.t) (s : Store) : Store :=
  mkStore (CompanyAssessmentTrigger s) (CompanyAssessments s)
    (AuditLogs s ++ [a]).

(* ===================================================================== *)
(** ** The environment of one cycle *)
(* ===================================================================== *)

(** What a write to the store resolves to, the [error] of the client's
    [{ data, error }]: [null] when the store took the write, an object
    when it refused it.  The client reports a refused query this way, as
    the read shows ([if (error)]), and does not throw. *)
Inductive WriteReply : Type :=
| Stored
| Refused (error : list (string * jsval)).

(** What the outside world answers during one call of [run]: for every
    external call either the value the script reads from the reply or the
    error the call throws.  The crawl service and the run-status endpoint
    are called repeatedly, so their replies are sequences. *)
Record Env : Type := mkEnv {
  CRAWL4AI_ENDPOINT : string;
  ASSISTANT_ID : string;
  (** the [error] object of the queued-trigger read, if the read fails *)
  select_error : option (list (string * jsval));
  (** [res.data] of the n-th POST to the crawl service *)
  crawl_reply : nat -> Result jsval;
  (** [thread.id] *)
  thread_reply : Result string;
  message_reply : Result unit;
  (** [run.id] *)
  run_reply : Result string;
  (** [status.status] of the n-th retrieval of the run *)
  poll_reply : nat -> Result string;
  (** the listing [messages] *)
  messages_reply : Result jsval;
  (** what each of the three writes resolves to, or the error it throws *)
  insert_report_reply : Result WriteReply;
  insert_audit_reply : Result WriteReply;
  update_status_reply : Result WriteReply
}.

(** The external calls and console lines of a cycle, in the order they are
    made. *)
Inductive Event : Type :=
| SelectQueued
| CrawlPost (endpoint : string) (body : jsval)
| ThreadCreate
| MessageCreate (thread role content : string)
| RunCreate (thread assistant_id : string)
| RunRetrieve (thread run_id : string)
| Sleep (ms : Z)
| MessagesList (thread : string)
| InsertReport (row : Report.t)
| InsertAudit (row : Audit.t)
| UpdateStatus (id : Z) (status : string)
| ConsoleLog (args : list jsval)
| ConsoleError (args : list jsval).

(** The state a cycle runs in: the store, the calls made so far (oldest
    first), and how many crawl and run-status replies have been consumed. *)
Record World : Type := mkWorld {
  store : Store;
  trace : list Event;
  crawls : nat;
  polls : nat
}.

(* ===================================================================== *)
(** ** The monad of a cycle *)
(* ===================================================================== *)

(** How a computation ends: with a value, with a thrown error, or not
    within the iterations granted to the polling loop. *)
Inductive Outcome (A : Type) : Type :=
| Done (a : A)
| Raised (e : Exn)
| Spinning.
Arguments Done {A} a.
Arguments Raised {A} e.
Arguments Spinning {A}.

(** A computation of a cycle: from a world to an outcome and the world it
    leaves. *)
Definition M (A : Type) : Type := World -> Outcome A * World.

(** Sequencing stops at the first throw, and at a loop that is still
    going on. *)
Definition retM {A} (a : A) : M A := fun w => (Done a, w).

Definition bindM {A B} (m : M A) (f : A -> M B) : M B :=
  fun w =>
    match m w with
    | (Done a, w') => f a w'
    | (Raised e, w') => (Raised e, w')
    | (Spinning, w') => (Spinning, w')
    end.

#[export] Instance Monad_M : Monad M := {| ret := @retM; bind := @bindM |}.

(** [throw e] *)
Definition throw {A} (e : Exn) : M A := fun w => (Raised e, w).

(** [try { m } catch (err) { h err }] *)
Definition try_catch {A} (m : M A) (h : Exn -> M A) : M A :=
  fun w =>
    match m w with
    | (Raised e, w') => h e w'
    | r => r
    end.

(** An expression that may throw, evaluated in place. *)
Definition eval {A} (r : Result A) : M A :=
  match r with
  | Returns a => retM a
  | Throws e => throw e
  end.

(** Records an external call or console line. *)
Definition emit (ev : Event) : M unit :=
  fun w => (Done tt, mkWorld (store w) (trace w ++ [ev]) (crawls w) (polls w)).

(** Applies a write to the store. *)
Definition write (f : Store -> Store) : M unit :=
  fun w => (Done tt, mkWorld (f (store w)) (trace w) (crawls w) (polls w)).

(** The loop has used up its iterations. *)
Definition spin {A} : M A := fun w => (Spinning, w).

(** Expressions that may throw compose in the same notation. *)
#[export] Instance Monad_Result : Monad Result := {|
  ret := @Returns;
  bind := fun A B (r : Result A) (f : A -> Result B) =>
            match r with
            | Returns a => f a
            | Throws e => Throws e
            end
|}.

(* ===================================================================== *)
(** ** The clients: Supabase, axios, the assistant API, the console *)
(* ===================================================================== *)

(** The [{ data, error }] a Supabase query resolves to. *)
Record SelectReply : Type := mkSelectReply {
  data : option (list Trigger.t);
  error : jsval
}.

Section Clients.
Variable env : Env.

(** [supabase.from('CompanyAssessmentTrigger').select('*')
    .eq('status', 'queued').limit(1)]: on a failed read [data] is [null]
    and [error] an object, otherwise [data] holds the selected rows. *)
Definition supabase_select_queued : M SelectReply :=
  emit SelectQueued ;;
  fun w =>
    (Done (match select_error env with
           | Some e => mkSelectReply None (JObj e)
           | None => mkSelectReply (Some (select_queued (store w))) JNull
           end), w).

(** [axios.post(process.env.CRAWL4AI_ENDPOINT, body)], yielding
    [res.data]; a transport failure throws. *)
Definition axios_post (body : jsval) : M jsval :=
  emit (CrawlPost (CRAWL4AI_ENDPOINT env) body) ;;
  fun w =>
    let w' := mkWorld (store w) (trace w) (S (crawls w)) (polls w) in
    match crawl_reply env (crawls w) with
    | Returns d => (Done d, w')
    | Throws e => (Raised e, w')
    end.

(** [openai.beta.threads.create()], yielding [thread.id] *)
Definition threads_create : M string :=
  emit ThreadCreate ;; eval (thread_reply env).

(** [openai.beta.threads.messages.create(thread.id, { role, content })] *)
Definition messages_create (thread role content : string) : M unit :=
  emit (MessageCreate thread role content) ;; eval (message_reply env).

(** [openai.beta.threads.runs.create(thread.id, { assistant_id })],
    yielding [run.id] *)
Definition runs_create (thread : string) : M string :=
  emit (RunCreate thread (ASSISTANT_ID env)) ;; eval (run_reply env).

(** [openai.beta.threads.runs.retrieve(thread.id, run.id)], yielding
    [status.status] *)
Definition runs_retrieve (thread run_id : string) : M string :=
  emit (RunRetrieve thread run_id) ;;
  fun w =>
    let w' := mkWorld (store w) (trace w) (crawls w) (S (polls w)) in
    match poll_reply env (polls w) with
    | Returns s => (Done s, w')
    | Throws e => (Raised e, w')
    end.

(** [new Promise((r) => setTimeout(r, ms))] *)
Definition sleep (ms : Z) : M unit := emit (Sleep ms).

(** [openai.beta.threads.messages.list(thread.id)] *)
Definition messages_list (thread : string) : M jsval :=
  emit (MessagesList thread) ;; eval (messages_reply env).

(** [await supabase.from('CompanyAssessments').insert([row])].  The call
    throws, or resolves to [{ error }]: the row is stored when [error] is
    [null] and not stored when the store refused it.  [run] drops the
    value the call resolves to, so a refused write goes unnoticed. *)
Definition supabase_insert_report (row : Report.t) : M unit :=
  emit (InsertReport row) ;;
  reply <- eval (insert_report_reply env) ;;
  match reply with
  | Stored => write (insert_report row)
  | Refused _ => ret tt
  end.

(** [await supabase.from('AuditLogs').insert([row])], likewise. *)
Definition supabase_insert_audit (row : Audit.t) : M unit :=
  emit (InsertAudit row) ;;
  reply <- eval (insert_audit_reply env) ;;
  match reply with
  | Stored => write (insert_audit row)
  | Refused _ => ret tt
  end.

(** [await supabase.from('CompanyAssessmentTrigger').update({ status })
    .eq('id', id)], likewise. *)
Definition supabase_update_status (id : Z) (status : string) : M unit :=
  emit (UpdateStatus id status) ;;
  reply <- eval (update_status_reply env) ;;
  match reply with
  | Stored => write (update_status id status)
  | Refused _ => ret tt
  end.

(** [console.log(...args)] *)
Definition console_log (args : list jsval) : M unit :=
  emit (ConsoleLog args).

(** [console.error(...args)] *)
Definition console_error (args : list jsval) : M unit :=
  emit (ConsoleError args).

(** The wait for the run, common to the three revisions:
<<
    while (true) {
      const status = await openai.beta.threads.runs.retrieve(thread.id, run.id);
      if (status.status === 'completed') break;
      await new Promise((r) => setTimeout(r, 2000));
    }
>>
    [fuel] bounds the number of iterations observed. *)
Fixpoint poll_until_completed (fuel : nat) (thread run_id : string)
  : M unit :=
  match fuel with
  | O => spin
  | S fuel' =>
      status <- runs_retrieve thread run_id ;;
      if String.eqb status "completed" then ret tt
      else sleep 2000 ;; poll_until_completed fuel' thread run_id
  end.
End Clients.

(* ===================================================================== *)
(** ** Formatting shared by the revisions *)
(* ===================================================================== *)

(** The callback of [pages.map]:
    [p => `## ${p.title} (${p.url})\n${p.text}`] *)
Definition page_block (p : jsval) : Result string :=
  title <- get_prop p "title" ;;
  url <- get_prop p "url" ;;
  text <- get_prop p "text" ;;
  ret ("## " ++ to_string title ++ " (" ++ to_string url ++ ")" ++ nl
       ++ to_string text).

(** [xs.map(f)] with a callback that may throw: the first throw ends it. *)
Fixpoint map_result {A B} (f : A -> Result B) (xs : list A)
  : Result (list B) :=
  match xs with
  | [] => Returns []
  | x :: rest =>
      y <- f x ;;
      ys <- map_result f rest ;;
      ret (y :: ys)
  end.

(** [pages.map(p => ...).join('\n\n')]: only an array has [map]. *)
Definition format_pages (pages : jsval) : Result string :=
  match pages with
  | JArr xs =>
      blocks <- map_result page_block xs ;;
      ret (join (nl ++ nl) blocks)
  | _ => Throws (TypeError "pages.map is not a function")
  end.

(** The body of every crawl request but for the key the target goes under. *)
Definition crawl_options : list (string * jsval) :=
  [("maxPages", JNum 20); ("depth", JNum 2); ("crawlJs", JBool true);
   ("htmlOnly", JBool false)].

(** The prompt template, identical in the three revisions (the earliest
    names the variable [formattedPrompt]). *)
Definition prompt (trigger : Trigger.t) (investorText companyText : string)
  : string :=
  nl ++
  "Investor Profile Input:" ++ nl ++
  "- PE/VC Firm Name: " ++ Trigger.investor_name trigger ++ nl ++
  "- Website: " ++ Trigger.investor_site trigger ++ nl ++
  "- Supplemental Links: "
    ++ to_string (JSON_stringify (Trigger.supplemental_links trigger)) ++ nl ++
  nl ++
  "Target Company Input:" ++ nl ++
  "- Company Name: " ++ Trigger.company_name trigger ++ nl ++
  "- Website: " ++ Trigger.company_url trigger ++ nl ++
  "- Assessment Context: " ++ Trigger.context trigger ++ nl ++
  nl ++
  "Extracted Content:" ++ nl ++
  "## Investor Pages" ++ nl ++
  investorText ++ nl ++
  nl ++
  "## Company Pages" ++ nl ++
  companyText ++ nl.

(** [messages.data[0].content[0].text.value] *)
Definition first_message_text (messages : jsval) : Result jsval :=
  d <- get_prop messages "data" ;;
  m <- get_first d ;;
  c <- get_prop m "content" ;;
  b <- get_first c ;;
  t <- get_prop b "text" ;;
  get_prop t "value".

(* ===================================================================== *)
(** ** The earliest revision (first document of [src/unnamed/part_000]) *)
(* ===================================================================== *)

Module Earliest.
Section Cycle.
Variable env : Env.

(** [crawl(url)], lines 9-18: the target goes under [url]; nothing is
    caught. *)
Definition crawl (url : string) : M string :=
  res_data <- axios_post env (JObj (("url", JStr url) :: crawl_options)) ;;
  pages <- eval (get_prop res_data "pages") ;;
  eval (format_pages pages).

(** [run()], lines 20-91.  [fuel] bounds the iterations of the wait for
    the run.  The status update precedes the audit insert. *)
Definition run (fuel : nat) : M unit :=
  reply <- supabase_select_queued env ;;
  match data reply with
  | None | Some [] => ret tt
  | Some (trigger :: _) =>
      investorText <- crawl (Trigger.investor_site trigger) ;;
      companyText <- crawl (Trigger.company_url trigger) ;;
      let formattedPrompt := prompt trigger investorText companyText in
      thread <- threads_create env ;;
      messages_create env thread "user" formattedPrompt ;;
      run_id <- runs_create env thread ;;
      poll_until_completed env fuel thread run_id ;;
      messages <- messages_list env thread ;;
      result <- eval (first_message_text messages) ;;
      supabase_insert_report env
        (Report.mk (Trigger.investor_name trigger)
           (Trigger.investor_site trigger) (Trigger.company_name trigger)
           (Trigger.company_url trigger) (Trigger.context trigger) result) ;;
      supabase_update_status env (Trigger.id trigger) "complete" ;;
      supabase_insert_audit env
        (Audit.mk "Assessment Complete" (Trigger.company_url trigger) 90
           "Report stored")
  end.
End Cycle.
End Earliest.

(* ===================================================================== *)
(** ** [src/index.js] *)
(* ===================================================================== *)

Module Index.
Section Cycle.
Variable env : Env.

(** [crawl(url)], lines 11-23: the target goes under [urls]; nothing is
    caught. *)
Definition crawl (url : string) : M string :=
  res_data <-
    axios_post env (JObj (("urls", JArr [JStr url]) :: crawl_options)) ;;
  pages <- eval (get_prop res_data "pages") ;;
  eval (format_pages pages).

(** [run()], lines 26-108.  [fuel] bounds the iterations of the wait for
    the run. *)
Definition run (fuel : nat) : M unit :=
  reply <- supabase_select_queued env ;;
  if truthy (error reply) then
    console_error [JStr "Supabase query error:"; error reply]
  else
  match data reply with
  | None | Some [] => ret tt
  | Some (trigger :: _) =>
      console_log
        [JStr "Processing trigger:"; JNum (Trigger.id trigger)] ;;
      investorText <- crawl (Trigger.investor_site trigger) ;;
      companyText <- crawl (Trigger.company_url trigger) ;;
      let prompt := prompt trigger investorText companyText in
      thread <- threads_create env ;;
      messages_create env thread "user" prompt ;;
      run_id <- runs_create env thread ;;
      poll_until_completed env fuel thread run_id ;;
      messages <- messages_list env thread ;;
      report <- eval (first_message_text messages) ;;
      supabase_insert_report env
        (Report.mk (Trigger.investor_name trigger)
           (Trigger.investor_site trigger) (Trigger.company_name trigger)
           (Trigger.company_url trigger) (Trigger.context trigger) report) ;;
      supabase_insert_audit env
        (Audit.mk "Assessment Complete" (Trigger.company_url trigger) 90
           "Report stored") ;;
      supabase_update_status env (Trigger.id trigger) "complete" ;;
      console_log
        [JStr ("Assessment complete for: " ++ Trigger.company_name trigger)]
  end.
End Cycle.
End Index.

(* ===================================================================== *)
(** ** The later revision (second document of [src/unnamed/part_000]) *)
(* ===================================================================== *)

Module Later.
Section Cycle.
Variable env : Env.

(** [crawl(url)], lines 108-132: the nested shape is accepted, and a
    malformed response or a thrown error yields a failure string. *)
Definition crawl (url : string) : M string :=
  try_catch
    (res_data <-
       axios_post env (JObj (("urls", JArr [JStr url]) :: crawl_options)) ;;
     top <- eval (get_prop res_data "pages") ;;
     let pages :=
       js_or (js_or top (opt_prop (opt_first res_data) "pages")) (JArr []) in
     if negb (isArray pages) then
       console_error
         [JStr "❌ Unexpected Crawl4AI response format:"; res_data] ;;
       ret "Crawl failed: no structured page content returned."
     else eval (format_pages pages))
    (fun err =>
       console_error
         [JStr "❌ Error calling Crawl4AI:"; err_payload err] ;;
       ret "Crawl failed: exception thrown.").

(** [run()], lines 134-223.  [fuel] bounds the iterations of the wait for
    the run.  The assistant calls and the writes are inside [try]. *)
Definition run (fuel : nat) : M unit :=
  reply <- supabase_select_queued env ;;
  if truthy (error reply) then
    console_error [JStr "❌ Supabase query error:"; error reply]
  else
  match data reply with
  | None | Some [] => ret tt
  | Some (trigger :: _) =>
      console_log
        [JStr ("🚀 Processing trigger: " ++ Z_to_string (Trigger.id trigger))] ;;
      investorText <- crawl (Trigger.investor_site trigger) ;;
      companyText <- crawl (Trigger.company_url trigger) ;;
      let prompt := prompt trigger investorText companyText in
      try_catch
        (thread <- threads_create env ;;
         messages_create env thread "user" prompt ;;
         run_id <- runs_create env thread ;;
         poll_until_completed env fuel thread run_id ;;
         messages <- messages_list env thread ;;
         result <- eval (first_message_text messages) ;;
         supabase_insert_report env
           (Report.mk (Trigger.investor_name trigger)
              (Trigger.investor_site trigger) (Trigger.company_name trigger)
              (Trigger.company_url trigger) (Trigger.context trigger)
              result) ;;
         supabase_insert_audit env
           (Audit.mk "Assessment Complete" (Trigger.company_url trigger) 90
              "Assessment stored successfully") ;;
         supabase_update_status env (Trigger.id trigger) "complete" ;;
         console_log
           [JStr ("✅ Assessment completed: "
                  ++ Trigger.company_name trigger)])
        (fun err =>
           console_error
             [JStr "❌ OpenAI or Supabase write failed:"; err_payload err])
  end.
End Cycle.
End Later.

(* ===================================================================== *)
(** ** Vocabulary of the properties *)
(* ===================================================================== *)

(** The events that change the store. *)
Definition is_store_write (ev : Event) : bool :=
  match ev with
  | InsertReport _ | InsertAudit _ | UpdateStatus _ _ => true
  | _ => false
  end.

(** The store writes among [evs], in order. *)
Definition store_writes (evs : list Event) : list Event :=
  filter is_store_write evs.

(** The events of a wait that sees [n] other statuses before [completed]. *)
Fixpoint poll_events (thread run_id : string) (n : nat) : list Event :=
  match n with
  | O => [RunRetrieve thread run_id]
  | S n' => RunRetrieve thread run_id :: Sleep 2000 :: poll_events thread run_id n'
  end.

(** [w'] continues [w] by events that all satisfy [P]. *)
Definition extends (P : Event -> Prop) (w w' : World) : Prop :=
  exists evs, trace w' = (trace w ++ evs)%list /\ Forall P evs.

(** Whatever the start and however it ends, [m] only adds events that
    satisfy [P]. *)
Definition emits {A} (P : Event -> Prop) (m : M A) : Prop :=
  forall w, extends P w (snd (m w)).

(** [needle] occurs in [hay]. *)
Definition contains (needle hay : string) : Prop :=
  exists pre post, hay = pre ++ needle ++ post.

(** A crawled page, [{ title, url, text }]. *)
Module Page.
Record t : Type := mk { title : string; url : string; text : string }.
End Page.

(** An element of the crawl response that carries the page [p]. *)
Definition carries_page (e : jsval) (p : Page.t) : Prop :=
  get_prop e "title" = Returns (JStr (Page.title p)) /\
  get_prop e "url" = Returns (JStr (Page.url p)) /\
  get_prop e "text" = Returns (JStr (Page.text p)).

(** The text the specification asks for: per page a heading line and the
    page text ... *)
Definition page_text (p : Page.t) : string :=
  "## " ++ Page.title p ++ " (" ++ Page.url p ++ ")" ++ nl ++ Page.text p.

(** ... pages separated by a blank line. *)
Definition pages_text (ps : list Page.t) : string :=
  join (nl ++ nl) (map page_text ps).

(** The two response shapes: [{ pages: [...] }] ... *)
Definition top_level_pages (d : jsval) (elems : list jsval) : Prop :=
  exists fields, d = JObj fields /\ lookup "pages" fields = JArr elems.

(** ... and [[{ pages: [...] }, ...]]. *)
Definition nested_pages (d : jsval) (elems : list jsval) : Prop :=
  exists fields rest,
    d = JArr (JObj fields :: rest) /\ lookup "pages" fields = JArr elems.

(** The failure string the later revision's [crawl] returns for pages
    that are not an array ... *)
Definition crawl_failed_format : string :=
  "Crawl failed: no structured page content returned.".

(** ... and the one its [catch] block returns. *)
Definition crawl_failed_exception : string :=
  "Crawl failed: exception thrown.".

(** The environment [env] with the run reporting the statuses [sts], one
    per retrieval. *)
Definition with_statuses (env : Env) (sts : nat -> string) : Env :=
  mkEnv (CRAWL4AI_ENDPOINT env) (ASSISTANT_ID env) (select_error env)
    (crawl_reply env) (thread_reply env) (message_reply env) (run_reply env)
    (fun n => Returns (sts n)) (messages_reply env)
    (insert_report_reply env) (insert_audit_reply env)
    (update_status_reply env).

(* ===================================================================== *)
(** ** Vocabulary of the cycle properties, and the example of the
       specification *)
(* ===================================================================== *)

(** The world after one POST to the crawl service. *)
Definition after_post (env : Env) (body : jsval) (w : World) : World :=
  mkWorld (store w) (trace w ++ [CrawlPost (CRAWL4AI_ENDPOINT env) body])
    (S (crawls w)) (polls w).

(** The trigger of the specification's example. *)
Definition acme : Trigger.t :=
  Trigger.mk 1 "queued" "Acme Capital" "https://acme.vc" "Widget Co"
    "https://widget.co" "Series A diligence"
    (JArr [JStr "https://acme.vc/portfolio"]).

(** The one page each crawl of the example returns, as a page and as the
    element of the response that carries it. *)
Definition home_page (site : string) : Page.t := Page.mk "Home" site "...".

Definition home (site : string) : jsval :=
  JObj [("title", JStr "Home"); ("url", JStr site); ("text", JStr "...")].

(** A message listing whose newest message has the text [v]. *)
Definition listing (v : string) : jsval :=
  JObj [("data",
         JArr [JObj [("content",
                      JArr [JObj [("text", JObj [("value", JStr v)])]])]])].

(** The site crawled by the n-th request of a cycle on [acme]. *)
Definition nth_site (n : nat) : string :=
  if Nat.eqb n 0 then "https://acme.vc" else "https://widget.co".

(** Every call succeeds; the run is [completed] at the third retrieval. *)
Definition example_env : Env :=
  mkEnv "http://crawl4ai.local/crawl" "asst_1" None
    (fun n => Returns (JObj [("pages", JArr [home (nth_site n)])]))
    (Returns "thread_1") (Returns tt) (Returns "run_1")
    (fun n => Returns (if Nat.ltb n 2 then "in_progress" else "completed"))
    (Returns (listing "REPORT")) (Returns Stored) (Returns Stored)
    (Returns Stored).

(** A store holding the queued trigger alone; nothing has happened yet. *)
Definition example_world : World :=
  mkWorld (mkStore [acme] [] []) [] 0 0.

(** [env] with other replies of the crawl service. *)
Definition with_crawl_replies (env : Env) (f : nat -> Result jsval) : Env :=
  mkEnv (CRAWL4AI_ENDPOINT env) (ASSISTANT_ID env) (select_error env) f
    (thread_reply env) (message_reply env) (run_reply env) (poll_reply env)
    (messages_reply env) (insert_report_reply env) (insert_audit_reply env)
    (update_status_reply env).

(** [env] with another reply to the audit insert. *)
Definition with_insert_audit_reply (env : Env) (r : Result WriteReply)
  : Env :=
  mkEnv (CRAWL4AI_ENDPOINT env) (ASSISTANT_ID env) (select_error env)
    (crawl_reply env) (thread_reply env) (message_reply env) (run_reply env)
    (poll_reply env) (messages_reply env) (insert_report_reply env) r
    (update_status_reply env).

(** [env] with the queued-trigger read failing with [e]. *)
Definition with_select_error (env : Env) (e : list (string * jsval)) : Env :=
  mkEnv (CRAWL4AI_ENDPOINT env) (ASSISTANT_ID env) (Some e)
    (crawl_reply env) (thread_reply env) (message_reply env) (run_reply env)
    (poll_reply env) (messages_reply env) (insert_report_reply env)
    (insert_audit_reply env) (update_status_reply env).

(** The crawl service answering in the nested shape. *)
Definition nested_env : Env :=
  with_crawl_replies example_env
    (fun n => Returns (JArr [JObj [("pages", JArr [home (nth_site n)])]])).

(** A transport failure of the crawl service. *)
Definition network_error : Exn := mkExn JUndefined "connect ECONNREFUSED".

(** The crawl service cannot be reached. *)
Definition unreachable_env : Env :=
  with_crawl_replies example_env (fun _ => Throws network_error).

(** A response whose [pages] is not an array. *)
Definition malformed_env : Env :=
  with_crawl_replies example_env
    (fun _ => Returns (JObj [("pages", JStr "<html>")])).

(** The value [crawl] of the later revision takes for the pages:
    [res.data.pages || res.data?.[0]?.pages || []], with [top] the value
    of [res.data.pages]. *)
Definition found_pages (d top : jsval) : jsval :=
  js_or (js_or top (opt_prop (opt_first d) "pages")) (JArr []).

(** Every call up to the write phase succeeds: the read returns the queued
    trigger [t], the two crawls return the pages [ps1] and [ps2], the
    assistant calls succeed, the run is [completed] at retrieval [n]
    (counting from 0) after [n] other statuses, and the newest message
    carries [result]. *)
Record CallsSucceed (env : Env) (w : World) (t : Trigger.t)
    (ps1 ps2 : list Page.t) (thread run_id : string) (n : nat)
    (result : jsval) : Prop := {
  read_ok : select_error env = None;
  one_queued : select_queued (store w) = [t];
  investor_crawl_ok :
    exists d elems,
      crawl_reply env (crawls w) = Returns d /\
      top_level_pages d elems /\ Forall2 carries_page elems ps1;
  company_crawl_ok :
    exists d elems,
      crawl_reply env (S (crawls w)) = Returns d /\
      top_level_pages d elems /\ Forall2 carries_page elems ps2;
  thread_ok : thread_reply env = Returns thread;
  message_ok : message_reply env = Returns tt;
  run_ok : run_reply env = Returns run_id;
  polls_pending :
    forall k, k < n ->
      exists s, poll_reply env (polls w + k) = Returns s /\ s <> "completed";
  poll_completed : poll_reply env (polls w + n) = Returns "completed";
  listing_ok :
    exists messages,
      messages_reply env = Returns messages /\
      first_message_text messages = Returns result
}.

(** The three writes succeed: the store takes each of them. *)
Definition WritesSucceed (env : Env) : Prop :=
  insert_report_reply env = Returns Stored /\
  insert_audit_reply env = Returns Stored /\
  update_status_reply env = Returns Stored.

(** The report row [run] builds from the trigger and the assistant's text. *)
Definition report_of (t : Trigger.t) (result : jsval) : Report.t :=
  Report.mk (Trigger.investor_name t) (Trigger.investor_site t)
    (Trigger.company_name t) (Trigger.company_url t) (Trigger.context t)
    result.

(** The audit row [run] builds, up to the revision's [details]. *)
Definition audit_of (t : Trigger.t) (details : string) : Audit.t :=
  Audit.mk "Assessment Complete" (Trigger.company_url t) 90 details.

(** The request body of the earliest revision ... *)
Definition url_body (target : string) : jsval :=
  JObj (("url", JStr target) :: crawl_options).

(** ... and of [src/index.js] and the later revision. *)
Definition urls_body (target : string) : jsval :=
  JObj (("urls", JArr [JStr target]) :: crawl_options).

(** The calls of a cycle from the first crawl to the message listing. *)
Definition work_events (env : Env) (body : string -> jsval) (t : Trigger.t)
    (ps1 ps2 : list Page.t) (thread run_id : string) (n : nat)
  : list Event :=
  [CrawlPost (CRAWL4AI_ENDPOINT env) (body (Trigger.investor_site t));
   CrawlPost (CRAWL4AI_ENDPOINT env) (body (Trigger.company_url t));
   ThreadCreate;
   MessageCreate thread "user" (prompt t (pages_text ps1) (pages_text ps2));
   RunCreate thread (ASSISTANT_ID env)]
  ++ poll_events thread run_id n ++ [MessagesList thread].

(** The store after the three writes of a cycle on [t], in either order of
    the last two. *)
Definition assessed (t : Trigger.t) (result : jsval) (details : string)
    (s : Store) : Store :=
  mkStore
    (CompanyAssessmentTrigger (update_status (Trigger.id t) "complete" s))
    (CompanyAssessments s ++ [report_of t result])
    (AuditLogs s ++ [audit_of t details]).

(** [m] returns from [w] with the store [s'], having made exactly the
    store writes [writes], in that order. *)
Definition completes_with (m : M unit) (w : World) (writes : list Event)
    (s' : Store) : Prop :=
  exists w',
    m w = (Done tt, w') /\ store w' = s' /\
    exists evs, trace w' = (trace w ++ evs)%list /\ store_writes evs = writes.

(** The cycle ended at [w'] with the report [r] stored and the trigger [t]
    as it was: no status update was sent, the trigger table is unchanged,
    [t] is still [queued] and is what the next read returns. *)
Definition left_queued (w w' : World) (t : Trigger.t) (r : Report.t)
    (a : Audit.t) : Prop :=
  (exists evs,
     trace w' = (trace w ++ evs)%list /\
     store_writes evs = [InsertReport r; InsertAudit a]) /\
  CompanyAssessmentTrigger (store w') = CompanyAssessmentTrigger (store w) /\
  In t (CompanyAssessmentTrigger (store w')) /\
  Trigger.status t = "queued" /\
  CompanyAssessments (store w') = (CompanyAssessments (store w) ++ [r])%list /\
  AuditLogs (store w') = AuditLogs (store w) /\
  select_queued (store w') = [t].

(** The order of writes C1 states. *)
Definition report_audit_status_order (evs : list Event) : Prop :=
  exists r a i,
    store_writes evs = [InsertReport r; InsertAudit a; UpdateStatus i "complete"].

(** The audit insert fails. *)
Definition insert_error : Exn := mkExn JUndefined "fetch failed".

(** The example with the audit insert throwing. *)
Definition audit_fails_env : Env :=
  with_insert_audit_reply example_env (Throws insert_error).

(** The [error] of a write the store refuses. *)
Definition refusal : list (string * jsval) :=
  [("message", JStr "internal server error"); ("code", JStr "500")].

(** The example with the store refusing the audit insert: the call
    resolves to [{ error }] and does not throw. *)
Definition audit_refused_env : Env :=
  with_insert_audit_reply example_env (Returns (Refused refusal)).

(** The world after the read alone. *)
Definition after_read (w : World) : World :=
  mkWorld (store w) (trace w ++ [SelectQueued]) (crawls w) (polls w).

(** A store whose only trigger is already complete. *)
Definition idle_world : World :=
  mkWorld (mkStore [set_status "complete" acme] [] []) [] 0 0.

(** The error object of a failed read. *)
Definition read_error : list (string * jsval) :=
  [("message", JStr "connection refused"); ("code", JStr "08006")].

(** The fixed parameters of a crawl request. *)
Definition fixed_crawl_parameters (body : jsval) : Prop :=
  get_prop body "maxPages" = Returns (JNum 20) /\
  get_prop body "depth" = Returns (JNum 2) /\
  get_prop body "crawlJs" = Returns (JBool true) /\
  get_prop body "htmlOnly" = Returns (JBool false).

(** The request names its target, as [url] or as the one element of
    [urls]. *)
Definition carries_target (body : jsval) (target : string) : Prop :=
  get_prop body "url" = Returns (JStr target) \/
  get_prop body "urls" = Returns (JArr [JStr target]).

(** A crawl request has the fixed parameters and one of [targets]. *)
Definition crawl_request_ok (targets : list string) (ev : Event) : Prop :=
  match ev with
  | CrawlPost _ body =>
      fixed_crawl_parameters body /\
      exists target, In target targets /\ carries_target body target
  | _ => True
  end.

(** The two sites of the trigger the read returns. *)
Definition sites_of (s : Store) : list string :=
  match select_queued s with
  | t :: _ => [Trigger.investor_site t; Trigger.company_url t]
  | [] => []
  end.

(** The events that are crawl requests. *)
Definition is_crawl_post (ev : Event) : bool :=
  match ev with CrawlPost _ _ => true | _ => false end.

(** The crawl requests among [evs]. *)
Definition crawl_posts (evs : list Event) : list Event :=
  filter is_crawl_post evs.

(** [m] sends exactly the crawl request [body] from [w]. *)
Definition posts_once (env : Env) (m : M string) (w : World) (body : jsval)
  : Prop :=
  exists evs,
    trace (snd (m w)) = (trace w ++ evs)%list /\
    crawl_posts evs = [CrawlPost (CRAWL4AI_ENDPOINT env) body].

(** An audit insert carries the row built from the trigger the read
    returned from [s], with the revision's [details]. *)
Definition audit_row_ok (details : string) (s : Store) (ev : Event) : Prop :=
  match ev with
  | InsertAudit a => exists t, select_queued s = [t] /\ a = audit_of t details
  | _ => True
  end.

(* ===================================================================== *)
(** ** Vocabulary of the properties beyond the success path *)
(* ===================================================================== *)

(** How an expression evaluated in place ends the computation. *)
Definition outcome_of {A} (r : Result A) : Outcome A :=
  match r with
  | Returns a => Done a
  | Throws e => Raised e
  end.

(** What [crawl] of the earliest revision and of [src/index.js] makes of
    the reply to its request: [res.data.pages.map(...).join('\n\n')], with
    every throw on the way passed on. *)
Definition plain_crawl_result (reply : Result jsval) : Result string :=
  d <- reply ;;
  pages <- get_prop d "pages" ;;
  format_pages pages.

(** The console line of the [catch] block of the later revision's [crawl]. *)
Definition crawl_error_line (err : Exn) : Event :=
  ConsoleError [JStr "❌ Error calling Crawl4AI:"; err_payload err].

(** What [crawl] of the later revision makes of the reply to its request:
    the text it returns and the console lines it writes. *)
Definition later_crawl_result (reply : Result jsval) : string * list Event :=
  match reply with
  | Throws e => (crawl_failed_exception, [crawl_error_line e])
  | Returns d =>
      match get_prop d "pages" with
      | Throws e => (crawl_failed_exception, [crawl_error_line e])
      | Returns top =>
          if negb (isArray (found_pages d top)) then
            (crawl_failed_format,
             [ConsoleError [JStr "❌ Unexpected Crawl4AI response format:"; d]])
          else
            match format_pages (found_pages d top) with
            | Returns text => (text, [])
            | Throws e => (crawl_failed_exception, [crawl_error_line e])
            end
      end
  end.

(** An event that is no store write. *)
Definition no_store_write (ev : Event) : Prop := is_store_write ev = false.

(** [m] leaves the store as it is and sends no store write, however it
    ends. *)
Definition quiet {A} (m : M A) : Prop :=
  forall w,
    store (snd (m w)) = store w /\ extends no_store_write w (snd (m w)).

(** [m] does not end with a thrown error. *)
Definition never_raises {A} (m : M A) : Prop :=
  forall w e, fst (m w) <> Raised e.

(** What a write that resolved did to the store: applied when the store
    took it, nothing when the store refused it. *)
Definition resolved (stored : bool) (f : Store -> Store) (s : Store) : Store :=
  if stored then f s else s.

(** How far the write phase of [src/index.js] and of the later revision
    can get for the trigger [t]: the store it leaves and the store writes
    it has sent.  A write that throws ends the phase and stores nothing;
    a write that resolves is followed by the next one, whether the store
    took it ([true]) or refused it ([false]). *)
Inductive WriteStage (t : Trigger.t) (details : string) (s : Store)
  : Store -> list Event -> Prop :=
| nothing_sent : WriteStage t details s s []
| report_thrown result :
    WriteStage t details s s [InsertReport (report_of t result)]
| audit_thrown result report_stored :
    WriteStage t details s
      (resolved report_stored (insert_report (report_of t result)) s)
      [InsertReport (report_of t result); InsertAudit (audit_of t details)]
| update_sent result report_stored audit_stored status_stored :
    WriteStage t details s
      (resolved status_stored (update_status (Trigger.id t) "complete")
         (resolved audit_stored (insert_audit (audit_of t details))
            (resolved report_stored (insert_report (report_of t result)) s)))
      [InsertReport (report_of t result); InsertAudit (audit_of t details);
       UpdateStatus (Trigger.id t) "complete"].

(** The same for the earliest revision, whose status update comes second. *)
Inductive EarliestWriteStage (t : Trigger.t) (details : string) (s : Store)
  : Store -> list Event -> Prop :=
| e_nothing_sent : EarliestWriteStage t details s s []
| e_report_thrown result :
    EarliestWriteStage t details s s [InsertReport (report_of t result)]
| e_update_thrown result report_stored :
    EarliestWriteStage t details s
      (resolved report_stored (insert_report (report_of t result)) s)
      [InsertReport (report_of t result);
       UpdateStatus (Trigger.id t) "complete"]
| e_audit_sent result report_stored status_stored audit_stored :
    EarliestWriteStage t details s
      (resolved audit_stored (insert_audit (audit_of t details))
         (resolved status_stored (update_status (Trigger.id t) "complete")
            (resolved report_stored (insert_report (report_of t result)) s)))
      [InsertReport (report_of t result);
       UpdateStatus (Trigger.id t) "complete";
       InsertAudit (audit_of t details)].

(** The stages open to a cycle whose read returned [selected]: none but
    the first when no trigger was read. *)
Definition stage_of
    (stage : Trigger.t -> string -> Store -> Store -> list Event -> Prop)
    (selected : list Trigger.t) (details : string) (s s' : Store)
    (writes : list Event) : Prop :=
  match selected with
  | t :: _ => stage t details s s' writes
  | [] => s' = s /\ writes = []
  end.

(** From [w] to [w'] the store and the store writes sent are related by
    [S]. *)
Definition cycle_writes (S : Store -> Store -> list Event -> Prop)
    (w w' : World) : Prop :=
  exists evs,
    trace w' = (trace w ++ evs)%list /\
    S (store w) (store w') (store_writes evs).

(** Whatever the start and however it ends, [m] relates the store and its
    store writes by [S]. *)
Definition reaches (S : Store -> Store -> list Event -> Prop) {A} (m : M A)
  : Prop :=
  forall w, cycle_writes S w (snd (m w)).

(** A trigger row after a cycle on the trigger with id [i]: as it was, or,
    if its id is [i], with status [complete]. *)
Definition touched (i : Z) (before after : Trigger.t) : Prop :=
  after = before \/
  (Trigger.id before = i /\ after = set_status "complete" before).

(** What a cycle on the trigger with id [i] may do to the store: append at
    most one report row and at most one audit row, and set rows with id
    [i] to [complete]; no row is removed, reordered or otherwise changed. *)
Definition store_frame (i : Z) (s s' : Store) : Prop :=
  (CompanyAssessments s' = CompanyAssessments s \/
   exists r, CompanyAssessments s' = (CompanyAssessments s ++ [r])%list) /\
  (AuditLogs s' = AuditLogs s \/
   exists a, AuditLogs s' = (AuditLogs s ++ [a])%list) /\
  Forall2 (touched i) (CompanyAssessmentTrigger s)
    (CompanyAssessmentTrigger s').

(** The id of the trigger the read returns from [s]. *)
Definition selected_id (s : Store) : Z :=
  match select_queued s with
  | t :: _ => Trigger.id t
  | [] => 0%Z
  end.

(** The assistant takes the prompt and runs: the thread, the message and
    the run are created, and the run is [completed] at retrieval [n]
    (counting from 0) after [n] other statuses. *)
Record AssistantRuns (env : Env) (w : World) (thread run_id : string)
    (n : nat) : Prop := {
  ar_thread : thread_reply env = Returns thread;
  ar_message : message_reply env = Returns tt;
  ar_run : run_reply env = Returns run_id;
  ar_pending :
    forall k, k < n ->
      exists s, poll_reply env (polls w + k) = Returns s /\ s <> "completed";
  ar_completed : poll_reply env (polls w + n) = Returns "completed"
}.

(** The calls of a cycle from the thread creation to the message listing,
    for a prompt built from the texts [text1] and [text2]. *)
Definition assistant_events (env : Env) (t : Trigger.t)
    (text1 text2 thread run_id : string) (n : nat) : list Event :=
  [ThreadCreate;
   MessageCreate thread "user" (prompt t text1 text2);
   RunCreate thread (ASSISTANT_ID env)]
  ++ poll_events thread run_id n ++ [MessagesList thread].

(** [env] with another reply to the message listing. *)
Definition with_messages_reply (env : Env) (r : Result jsval) : Env :=
  mkEnv (CRAWL4AI_ENDPOINT env) (ASSISTANT_ID env) (select_error env)
    (crawl_reply env) (thread_reply env) (message_reply env) (run_reply env)
    (poll_reply env) r (insert_report_reply env) (insert_audit_reply env)
    (update_status_reply env).

(** [env] with other replies to the retrievals of the run. *)
Definition with_poll_replies (env : Env) (f : nat -> Result string) : Env :=
  mkEnv (CRAWL4AI_ENDPOINT env) (ASSISTANT_ID env) (select_error env)
    (crawl_reply env) (thread_reply env) (message_reply env) (run_reply env)
    f (messages_reply env) (insert_report_reply env) (insert_audit_reply env)
    (update_status_reply env).

(** What the cycle reads from the assistant once the run is completed:
    [messages.data[0].content[0].text.value] of the listing, with a throw
    of the listing call or of the path passed on. *)
Definition listing_result (env : Env) : Result jsval :=
  messages <- messages_reply env ;;
  first_message_text messages.

(** The console line of the [catch] block of the later revision's [run]. *)
Definition write_failed_line (err : Exn) : Event :=
  ConsoleError [JStr "❌ OpenAI or Supabase write failed:"; err_payload err].

(** The first events of a cycle of the later revision on [t]: the read,
    the console line, and the two crawls with the console lines they
    write. *)
Definition later_crawl_events (env : Env) (w : World) (t : Trigger.t)
  : list Event :=
  [SelectQueued;
   ConsoleLog [JStr ("🚀 Processing trigger: " ++ Z_to_string (Trigger.id t))]]
  ++ (CrawlPost (CRAWL4AI_ENDPOINT env) (urls_body (Trigger.investor_site t))
      :: snd (later_crawl_result (crawl_reply env (crawls w))))
  ++ (CrawlPost (CRAWL4AI_ENDPOINT env) (urls_body (Trigger.company_url t))
      :: snd (later_crawl_result (crawl_reply env (S (crawls w))))).

(** The assistant lists no message. *)
Definition empty_listing_env : Env :=
  with_messages_reply example_env (Returns (JObj [("data", JArr [])])).

(** A retrieval of the run throws. *)
Definition poll_error : Exn := mkExn JUndefined "socket hang up".

(** The example with the run pending once and the next retrieval throwing. *)
Definition poll_fails_env : Env :=
  with_poll_replies example_env
    (fun n => if Nat.eqb n 0 then Returns "in_progress" else Throws poll_error).

(** The crawl service answering with a page list that holds a [null]. *)
Definition null_page_env : Env :=
  with_crawl_replies example_env
    (fun n => Returns (JObj [("pages", JArr [home (nth_site n); JNull])])).

(** The next read after a cycle that left the store [s']: it returns no
    row with the id of [t], and nothing when [t] alone was queued. *)
Definition not_selected_again (s s' : Store) (t : Trigger.t) : Prop :=
  (forall x, In x (select_queued s') -> Trigger.id x <> Trigger.id t) /\
  (filter is_queued (CompanyAssessmentTrigger s) = [t] ->
   select_queued s' = []).

(** A reply to a retrieval of the run that ends the wait: the status
    [completed], or a throw. *)
Definition ends_wait (r : Result string) : bool :=
  match r with
  | Returns s => String.eqb s "completed"
  | Throws _ => true
  end.

(** How the wait ends at such a reply. *)
Definition wait_outcome (r : Result string) : Outcome unit :=
  match r with
  | Returns _ => Done tt
  | Throws e => Raised e
  end.

(** The constants of the calls: requests go to the configured crawl
    endpoint, messages are posted as [user], runs are started for the
    configured assistant, the wait sleeps 2000 ms, and a status update
    sets [complete]. *)
Definition call_constants (env : Env) (ev : Event) : Prop :=
  match ev with
  | CrawlPost endpoint _ => endpoint = CRAWL4AI_ENDPOINT env
  | MessageCreate _ role _ => role = "user"
  | RunCreate _ assistant_id => assistant_id = ASSISTANT_ID env
  | Sleep ms => ms = 2000%Z
  | UpdateStatus _ status => status = "complete"
  | _ => True
  end.

(** The cycle ended at [w'] with the trigger [t] complete and no audit
    row: the three writes were sent, the report row [r] is stored, the
    audit table is as it was, [t] is [complete] and is not read again. *)
Definition completed_without_audit (w w' : World) (t : Trigger.t)
    (r : Report.t) (a : Audit.t) : Prop :=
  (exists evs,
     trace w' = (trace w ++ evs)%list /\
     store_writes evs
     = [InsertReport r; InsertAudit a; UpdateStatus (Trigger.id t) "complete"]) /\
  CompanyAssessments (store w') = (CompanyAssessments (store w) ++ [r])%list /\
  AuditLogs (store w') = AuditLogs (store w) /\
  In (set_status "complete" t) (CompanyAssessmentTrigger (store w')) /\
  not_selected_again (store w) (store w') t.

(* ===================================================================== *)
(** ** Stepping through a cycle *)
(* ===================================================================== *)

Arguments select_queued : simpl never.
Arguments prompt : simpl never.
Arguments update_status : simpl never.
Arguments insert_report : simpl never.
Arguments insert_audit : simpl never.
Arguments Z_to_string : simpl never.
Arguments String.append : simpl never.
Arguments format_pages : simpl never.
Arguments first_message_text : simpl never.

Example JSON_stringify_links :
  JSON_stringify (JArr [JStr "https://acme.vc/portfolio"])
  = JStr (String "[" (String dquote "https://acme.vc/portfolio" ++ String dquote "]")).
Proof. reflexivity. Qed.

Example to_string_nested :
  to_string (JArr [JNum 1; JNull; JArr [JStr "a"; JNum (-2)]; JObj []])
  = "1,,a,-2,[object Object]".
Proof. reflexivity. Qed.

(** Unfolds the monad and the clients, leaving the replies of the
    environment and the polling loop in place. *)
Ltac exec :=
  cbv beta iota zeta delta
    [bind ret Monad_M bindM retM throw try_catch eval emit write spin
     supabase_select_queued axios_post threads_create messages_create
     runs_create runs_retrieve sleep messages_list supabase_insert_report
     supabase_insert_audit supabase_update_status console_log console_error];
  cbn [store trace crawls polls data error fst snd].

(** Flattens the trace: [(t ++ [a]) ++ [b]] becomes [t ++ [a; b]]. *)
Ltac flat := repeat rewrite <- app_assoc; cbn [app].

Lemma bind_Done {A B} (m : M A) (f : A -> M B) w a w' :
  m w = (Done a, w') -> (x <- m ;; f x) w = f a w'.
Proof. intros H. exec. rewrite H. reflexivity. Qed.

Section Polling.
Variable env : Env.
Variables thread run_id : string.

(** The wait ends at the first [completed], given enough iterations. *)
Lemma poll_until_completed_done n : forall fuel w,
  n < fuel ->
  (forall k, k < n ->
     exists s, poll_reply env (polls w + k) = Returns s /\ s <> "completed") ->
  poll_reply env (polls w + n) = Returns "completed" ->
  poll_until_completed env fuel thread run_id w
  = (Done tt,
     mkWorld (store w) (trace w ++ poll_events thread run_id n) (crawls w)
       (polls w + S n)).
Proof.
  induction n as [|n IH]; intros fuel w Hlt Hbefore Hdone.
  - destruct fuel as [|fuel]; [lia|]. cbn [poll_until_completed]. exec.
    rewrite Nat.add_0_r in Hdone. rewrite Hdone. cbn.
    rewrite Nat.add_1_r. reflexivity.
  - destruct fuel as [|fuel]; [lia|]. cbn [poll_until_completed]. exec.
    destruct (Hbefore 0) as [s [Hs Hne]]; [lia|].
    rewrite Nat.add_0_r in Hs. rewrite Hs.
    destruct (String.eqb_spec s "completed") as [->|_]; [congruence|].
    rewrite IH; cbn [polls store trace crawls].
    + flat. f_equal. f_equal. lia.
    + lia.
    + intros k Hk. destruct (Hbefore (S k)) as [s' Hs']; [lia|].
      exists s'. rewrite Nat.add_succ_comm. exact Hs'.
    + rewrite Nat.add_succ_comm. exact Hdone.
Qed.

(** As long as no retrieval reports [completed], the wait goes on. *)
Lemma poll_until_completed_spins fuel : forall w,
  (forall k, k < fuel ->
     exists s, poll_reply env (polls w + k) = Returns s /\ s <> "completed") ->
  fst (poll_until_completed env fuel thread run_id w) = Spinning.
Proof.
  induction fuel as [|fuel IH]; intros w Hnever.
  - reflexivity.
  - cbn [poll_until_completed]. exec.
    destruct (Hnever 0) as [s [Hs Hne]]; [lia|].
    rewrite Nat.add_0_r in Hs. rewrite Hs.
    destruct (String.eqb_spec s "completed") as [->|_]; [congruence|].
    specialize (IH (mkWorld (store w)
                      ((trace w ++ [RunRetrieve thread run_id]) ++ [Sleep 2000])
                      (crawls w) (S (polls w)))).
    cbv beta iota delta [fst] in IH. apply IH. cbn [polls].
    intros k Hk. destruct (Hnever (S k)) as [s' Hs']; [lia|].
    exists s'. rewrite Nat.add_succ_comm. exact Hs'.
Qed.
End Polling.

(* ===================================================================== *)
(** ** What a computation may add to the trace *)
(* ===================================================================== *)

(** Closes a goal [extends P w w'] whose new events are in sight. *)
Ltac close_extends :=
  first
    [ exists []; split; [cbn [trace]; symmetry; apply app_nil_r | constructor]
    | eexists; split;
      [cbn [trace]; flat; reflexivity | repeat constructor; auto] ].

Section Emits.
Variable P : Event -> Prop.

Lemma extends_trans w1 w2 w3 :
  extends P w1 w2 -> extends P w2 w3 -> extends P w1 w3.
Proof.
  intros [e1 [H1 F1]] [e2 [H2 F2]]. exists (e1 ++ e2)%list. split.
  - rewrite H2, H1. symmetry. apply app_assoc.
  - apply Forall_app. split; assumption.
Qed.

Lemma emits_apply {A} (m : M A) w0 w :
  emits P m -> extends P w0 w -> extends P w0 (snd (m w)).
Proof. intros Hm H0. eapply extends_trans; [exact H0 | apply Hm]. Qed.

Lemma emits_ret {A} (a : A) : emits P (ret a).
Proof. intros w. exec. close_extends. Qed.

Lemma emits_throw {A} e : emits P (@throw A e).
Proof. intros w. exec. close_extends. Qed.

Lemma emits_spin {A} : emits P (@spin A).
Proof. intros w. exec. close_extends. Qed.

Lemma emits_eval {A} (r : Result A) : emits P (eval r).
Proof. intros w. destruct r; exec; close_extends. Qed.

Lemma emits_write f : emits P (write f).
Proof. intros w. exec. close_extends. Qed.

Lemma emits_emit ev : P ev -> emits P (emit ev).
Proof. intros Hev w. exec. close_extends. Qed.

Lemma emits_bind {A B} (m : M A) (f : A -> M B) :
  emits P m -> (forall a, emits P (f a)) -> emits P (x <- m ;; f x).
Proof.
  intros Hm Hf w. specialize (Hm w). exec.
  destruct (m w) as [[a|e|] w']; cbn [snd] in *.
  - eapply extends_trans; [exact Hm | apply Hf].
  - exact Hm.
  - exact Hm.
Qed.

Lemma emits_try_catch {A} (m : M A) (h : Exn -> M A) :
  emits P m -> (forall e, emits P (h e)) -> emits P (try_catch m h).
Proof.
  intros Hm Hh w. specialize (Hm w). exec.
  destruct (m w) as [[a|e|] w']; cbn [snd] in *.
  - exact Hm.
  - eapply extends_trans; [exact Hm | apply Hh].
  - exact Hm.
Qed.

Variable env : Env.

Lemma emits_select : P SelectQueued -> emits P (supabase_select_queued env).
Proof. intros H w. exec. close_extends. Qed.

Lemma emits_axios_post body :
  P (CrawlPost (CRAWL4AI_ENDPOINT env) body) -> emits P (axios_post env body).
Proof.
  intros H w. exec. destruct (crawl_reply env (crawls w)); close_extends.
Qed.

Lemma emits_threads_create : P ThreadCreate -> emits P (threads_create env).
Proof.
  intros H w. exec. destruct (thread_reply env); exec; close_extends.
Qed.

Lemma emits_messages_create thread role content :
  P (MessageCreate thread role content) ->
  emits P (messages_create env thread role content).
Proof.
  intros H w. exec. destruct (message_reply env); exec; close_extends.
Qed.

Lemma emits_runs_create thread :
  P (RunCreate thread (ASSISTANT_ID env)) -> emits P (runs_create env thread).
Proof.
  intros H w. exec. destruct (run_reply env); exec; close_extends.
Qed.

Lemma emits_runs_retrieve thread run_id :
  P (RunRetrieve thread run_id) -> emits P (runs_retrieve env thread run_id).
Proof.
  intros H w. exec. destruct (poll_reply env (polls w)); close_extends.
Qed.

Lemma emits_messages_list thread :
  P (MessagesList thread) -> emits P (messages_list env thread).
Proof.
  intros H w. exec. destruct (messages_reply env); exec; close_extends.
Qed.

Lemma emits_insert_report row :
  P (InsertReport row) -> emits P (supabase_insert_report env row).
Proof.
  intros H w. exec.
  destruct (insert_report_reply env) as [[|err]|e]; exec; close_extends.
Qed.

Lemma emits_insert_audit row :
  P (InsertAudit row) -> emits P (supabase_insert_audit env row).
Proof.
  intros H w. exec.
  destruct (insert_audit_reply env) as [[|err]|e]; exec; close_extends.
Qed.

Lemma emits_update_status id st :
  P (UpdateStatus id st) -> emits P (supabase_update_status env id st).
Proof.
  intros H w. exec.
  destruct (update_status_reply env) as [[|err]|e]; exec; close_extends.
Qed.

Lemma emits_console_log args : P (ConsoleLog args) -> emits P (console_log args).
Proof. intros H w. exec. close_extends. Qed.

Lemma emits_console_error args :
  P (ConsoleError args) -> emits P (console_error args).
Proof. intros H w. exec. close_extends. Qed.

Lemma emits_poll_until_completed fuel thread run_id :
  P (RunRetrieve thread run_id) -> P (Sleep 2000) ->
  emits P (poll_until_completed env fuel thread run_id).
Proof.
  intros Hr Hs. induction fuel as [|fuel IH]; cbn [poll_until_completed].
  - apply emits_spin.
  - apply emits_bind; [apply emits_runs_retrieve; exact Hr|].
    intros status. destruct (String.eqb status "completed").
    + apply emits_ret.
    + apply emits_bind; [apply emits_emit; exact Hs | intros _; exact IH].
Qed.
End Emits.

Create HintDb emits.
#[export] Hint Resolve emits_ret emits_throw emits_spin emits_eval emits_write
  emits_emit emits_select emits_axios_post emits_threads_create
  emits_messages_create emits_runs_create emits_runs_retrieve
  emits_messages_list emits_insert_report emits_insert_audit
  emits_update_status emits_console_log emits_console_error
  emits_poll_until_completed : emits.

(** Walks through a computation along its binds and branches. *)
Ltac emits_step :=
  lazymatch goal with
  | |- emits _ (bind _ _) => apply emits_bind; [ | intros ? ]
  | |- emits _ (try_catch _ _) => apply emits_try_catch; [ | intros ? ]
  | |- emits _ (match ?x with _ => _ end) => destruct x
  | |- emits _ _ => solve [auto with emits]
  end.

Ltac emits_walk := cbv zeta; repeat emits_step.

(* ===================================================================== *)
(** ** The crawl fetcher *)
(* ===================================================================== *)

Lemma page_block_carries e p :
  carries_page e p -> page_block e = Returns (page_text p).
Proof.
  intros [Ht [Hu Hx]]. unfold page_block, page_text. cbn [bind ret Monad_Result].
  rewrite Ht, Hu, Hx. reflexivity.
Qed.

Lemma map_result_carries elems : forall ps,
  Forall2 carries_page elems ps ->
  map_result page_block elems = Returns (map page_text ps).
Proof.
  induction elems as [|e elems IH]; intros ps H; inversion H; subst.
  - reflexivity.
  - cbn [map_result map bind ret Monad_Result].
    rewrite (page_block_carries e y) by assumption.
    rewrite (IH l') by assumption. reflexivity.
Qed.

Lemma format_pages_carries elems ps :
  Forall2 carries_page elems ps ->
  format_pages (JArr elems) = Returns (pages_text ps).
Proof.
  intros H. unfold format_pages, pages_text. cbn [bind ret Monad_Result].
  rewrite (map_result_carries elems ps H). reflexivity.
Qed.

Section CrawlReplies.
Variable env : Env.
Variable url : string.
Variable w : World.
Variable d : jsval.
Hypothesis Hreply : crawl_reply env (crawls w) = Returns d.

Variable elems : list jsval.
Variable ps : list Page.t.
Hypothesis Hpages : Forall2 carries_page elems ps.

Lemma Earliest_crawl_top_level :
  top_level_pages d elems ->
  Earliest.crawl env url w
  = (Done (pages_text ps),
     after_post env (JObj (("url", JStr url) :: crawl_options)) w).
Proof.
  intros [fields [-> Hl]]. unfold Earliest.crawl. exec. rewrite Hreply.
  cbn [get_prop]. rewrite Hl, (format_pages_carries elems ps Hpages).
  reflexivity.
Qed.

Lemma Index_crawl_top_level :
  top_level_pages d elems ->
  Index.crawl env url w
  = (Done (pages_text ps),
     after_post env (JObj (("urls", JArr [JStr url]) :: crawl_options)) w).
Proof.
  intros [fields [-> Hl]]. unfold Index.crawl. exec. rewrite Hreply.
  cbn [get_prop]. rewrite Hl, (format_pages_carries elems ps Hpages).
  reflexivity.
Qed.

Lemma Later_crawl_top_level :
  top_level_pages d elems ->
  Later.crawl env url w
  = (Done (pages_text ps),
     after_post env (JObj (("urls", JArr [JStr url]) :: crawl_options)) w).
Proof.
  intros [fields [-> Hl]]. unfold Later.crawl. exec. rewrite Hreply.
  cbn [get_prop]. rewrite Hl.
  cbn [js_or truthy isArray negb].
  rewrite (format_pages_carries elems ps Hpages). reflexivity.
Qed.

Lemma Later_crawl_nested :
  nested_pages d elems ->
  Later.crawl env url w
  = (Done (pages_text ps),
     after_post env (JObj (("urls", JArr [JStr url]) :: crawl_options)) w).
Proof.
  intros [fields [rest [-> Hl]]]. unfold Later.crawl. exec. rewrite Hreply.
  cbn [get_prop js_or truthy opt_first get_first opt_prop]. rewrite Hl.
  cbn [js_or truthy isArray negb].
  rewrite (format_pages_carries elems ps Hpages). reflexivity.
Qed.

(** Without the fallback, [res.data.pages] of an array is [undefined]
    and [.map] on it throws. *)
Lemma Earliest_crawl_nested :
  nested_pages d elems ->
  Earliest.crawl env url w
  = (Raised (TypeError "pages.map is not a function"),
     after_post env (JObj (("url", JStr url) :: crawl_options)) w).
Proof.
  intros [fields [rest [-> Hl]]]. unfold Earliest.crawl. exec.
  rewrite Hreply. reflexivity.
Qed.

Lemma Index_crawl_nested :
  nested_pages d elems ->
  Index.crawl env url w
  = (Raised (TypeError "pages.map is not a function"),
     after_post env (JObj (("urls", JArr [JStr url]) :: crawl_options)) w).
Proof.
  intros [fields [rest [-> Hl]]]. unfold Index.crawl. exec.
  rewrite Hreply. reflexivity.
Qed.
End CrawlReplies.

(* ===================================================================== *)
(** ** The example of the specification *)
(* ===================================================================== *)

Example example_prompt :
  prompt acme (pages_text [home_page "https://acme.vc"])
    (pages_text [home_page "https://widget.co"])
  = nl ++ "Investor Profile Input:" ++ nl
    ++ "- PE/VC Firm Name: Acme Capital" ++ nl
    ++ "- Website: https://acme.vc" ++ nl
    ++ "- Supplemental Links: [" ++ String dquote "https://acme.vc/portfolio"
    ++ String dquote "]" ++ nl ++ nl
    ++ "Target Company Input:" ++ nl
    ++ "- Company Name: Widget Co" ++ nl
    ++ "- Website: https://widget.co" ++ nl
    ++ "- Assessment Context: Series A diligence" ++ nl ++ nl
    ++ "Extracted Content:" ++ nl
    ++ "## Investor Pages" ++ nl
    ++ "## Home (https://acme.vc)" ++ nl ++ "..." ++ nl ++ nl
    ++ "## Company Pages" ++ nl
    ++ "## Home (https://widget.co)" ++ nl ++ "..." ++ nl.
Proof. reflexivity. Qed.

(** The cycle of the example: after the [completed] status one report row
    for Widget Co is stored and the trigger is [complete]. *)
Example example_cycle :
  Index.run example_env 3 example_world
  = (Done tt,
     mkWorld
       (mkStore [set_status "complete" acme]
          [Report.mk "Acme Capital" "https://acme.vc" "Widget Co"
             "https://widget.co" "Series A diligence" (JStr "REPORT")]
          [Audit.mk "Assessment Complete" "https://widget.co" 90
             "Report stored"])
       ([SelectQueued; ConsoleLog [JStr "Processing trigger:"; JNum 1]]
        ++ work_events example_env urls_body acme
             [home_page "https://acme.vc"] [home_page "https://widget.co"]
             "thread_1" "run_1" 2
        ++ [InsertReport (report_of acme (JStr "REPORT"));
            InsertAudit (audit_of acme "Report stored");
            UpdateStatus 1 "complete";
            ConsoleLog [JStr "Assessment complete for: Widget Co"]])
       2 3).
Proof. vm_compute. reflexivity. Qed.

(* ===================================================================== *)
(** ** Properties of the crawl fetcher *)
(* ===================================================================== *)

(** C2, as amended.  Let the crawl service answer with pages [ps]
    (objects whose [title], [url] and [text] are strings).  The later
    revision's [crawl] returns the text of the specification, per page
    ["## " ++ title ++ " (" ++ url ++ ")" ++ newline ++ text], pages
    separated by a blank line, whether the pages come as a top-level
    [pages] array or nested under the first element of a top-level array.
    The [crawl] of [src/index.js] and of the earliest revision return the
    same text for the top-level shape only: on the nested shape they
    throw.  For no page the text is empty. *)
Theorem crawl_returns_pages_text :
  forall env url w d elems ps,
    crawl_reply env (crawls w) = Returns d ->
    Forall2 carries_page elems ps ->
    (top_level_pages d elems \/ nested_pages d elems ->
     fst (Later.crawl env url w) = Done (pages_text ps)) /\
    (top_level_pages d elems ->
     fst (Index.crawl env url w) = Done (pages_text ps) /\
     fst (Earliest.crawl env url w) = Done (pages_text ps)) /\
    (nested_pages d elems ->
     (exists e, fst (Index.crawl env url w) = Raised e) /\
     (exists e, fst (Earliest.crawl env url w) = Raised e)) /\
    pages_text [] = "".
Proof.
  intros env url w d elems ps Hreply Hpages. repeat split.
  - intros [Htop|Hnested].
    + rewrite (Later_crawl_top_level env url w d Hreply elems ps); auto.
    + rewrite (Later_crawl_nested env url w d Hreply elems ps); auto.
  - rewrite (Index_crawl_top_level env url w d Hreply elems ps); auto.
  - rewrite (Earliest_crawl_top_level env url w d Hreply elems ps); auto.
  - eexists. rewrite (Index_crawl_nested env url w d Hreply elems); auto.
    reflexivity.
  - eexists. rewrite (Earliest_crawl_nested env url w d Hreply elems); auto.
    reflexivity.
Qed.

Lemma home_carries site : carries_page (home site) (home_page site).
Proof. repeat split. Qed.

(** The theorem at the nested response of the example. *)
Lemma crawl_returns_pages_text_witness :
  fst (Later.crawl nested_env "https://acme.vc" example_world)
  = Done ("## Home (https://acme.vc)" ++ nl ++ "...").
Proof.
  apply (proj1 (crawl_returns_pages_text nested_env "https://acme.vc"
                  example_world
                  (JArr [JObj [("pages", JArr [home "https://acme.vc"])]])
                  [home "https://acme.vc"] [home_page "https://acme.vc"]
                  eq_refl
                  (Forall2_cons _ _ (home_carries "https://acme.vc")
                     (Forall2_nil _)))).
  right. exists [("pages", JArr [home "https://acme.vc"])], [].
  split; reflexivity.
Defined.

(** C2 as stated fails in [src/index.js]: given the pages nested under the
    first element of a top-level array, its [crawl] throws instead of
    returning the text. *)
Lemma index_crawl_rejects_nested_pages :
  nested_pages (JArr [JObj [("pages", JArr [home "https://acme.vc"])]])
    [home "https://acme.vc"] /\
  fst (Index.crawl nested_env "https://acme.vc" example_world)
  = Raised (TypeError "pages.map is not a function") /\
  fst (Index.crawl nested_env "https://acme.vc" example_world)
  <> Done (pages_text [home_page "https://acme.vc"]).
Proof.
  split; [|split].
  - exists [("pages", JArr [home "https://acme.vc"])], []. split; reflexivity.
  - reflexivity.
  - discriminate.
Qed.

Lemma Later_crawl_never_raises env url w :
  exists s w', Later.crawl env url w = (Done s, w').
Proof.
  unfold Later.crawl. exec.
  destruct (crawl_reply env (crawls w)) as [d|e]; exec.
  - destruct (get_prop d "pages") as [top|e]; exec.
    + destruct (negb (isArray (found_pages d top))) eqn:Harr;
        unfold found_pages in Harr; rewrite Harr; exec.
      * eexists. eexists. reflexivity.
      * destruct (format_pages _); exec; eexists; eexists; reflexivity.
    + eexists. eexists. reflexivity.
  - eexists. eexists. reflexivity.
Qed.

Lemma Later_crawl_transport_failure env url w e :
  crawl_reply env (crawls w) = Throws e ->
  fst (Later.crawl env url w) = Done crawl_failed_exception.
Proof. intros H. unfold Later.crawl. exec. rewrite H. reflexivity. Qed.

Lemma Later_crawl_null_body env url w d :
  crawl_reply env (crawls w) = Returns d ->
  d = JNull \/ d = JUndefined ->
  fst (Later.crawl env url w) = Done crawl_failed_exception.
Proof.
  intros H [->| ->]; unfold Later.crawl; exec; rewrite H; reflexivity.
Qed.

Lemma Later_crawl_not_an_array env url w d top :
  crawl_reply env (crawls w) = Returns d ->
  get_prop d "pages" = Returns top ->
  isArray (found_pages d top) = false ->
  fst (Later.crawl env url w) = Done crawl_failed_format.
Proof.
  intros H Htop Harr. unfold Later.crawl. exec. rewrite H, Htop.
  unfold found_pages in Harr. rewrite Harr. reflexivity.
Qed.

Lemma Later_crawl_no_pages env url w d top :
  crawl_reply env (crawls w) = Returns d ->
  get_prop d "pages" = Returns top ->
  truthy top = false ->
  truthy (opt_prop (opt_first d) "pages") = false ->
  fst (Later.crawl env url w) = Done "".
Proof.
  intros H Htop Hf1 Hf2. unfold Later.crawl. exec. rewrite H, Htop.
  unfold js_or. rewrite Hf1. cbv iota. rewrite Hf2. reflexivity.
Qed.

(** C3, as amended.  The later revision's [crawl] never throws and always
    returns.  A transport failure, and likewise a [null] body, yields
    ["Crawl failed: exception thrown."]; a response whose pages value is
    not an array yields the other string,
    ["Crawl failed: no structured page content returned."]; a response
    in which no pages value is found at either place yields the empty
    string, like an empty page list. *)
Theorem later_crawl_failure_strings :
  forall env url w,
    (exists s w', Later.crawl env url w = (Done s, w')) /\
    (forall e,
       crawl_reply env (crawls w) = Throws e ->
       fst (Later.crawl env url w) = Done crawl_failed_exception) /\
    (forall d,
       crawl_reply env (crawls w) = Returns d ->
       d = JNull \/ d = JUndefined ->
       fst (Later.crawl env url w) = Done crawl_failed_exception) /\
    (forall d top,
       crawl_reply env (crawls w) = Returns d ->
       get_prop d "pages" = Returns top ->
       isArray (found_pages d top) = false ->
       fst (Later.crawl env url w) = Done crawl_failed_format) /\
    (forall d top,
       crawl_reply env (crawls w) = Returns d ->
       get_prop d "pages" = Returns top ->
       truthy top = false ->
       truthy (opt_prop (opt_first d) "pages") = false ->
       fst (Later.crawl env url w) = Done "") /\
    crawl_failed_format <> crawl_failed_exception.
Proof.
  intros env url w. repeat split.
  - apply Later_crawl_never_raises.
  - apply Later_crawl_transport_failure.
  - apply Later_crawl_null_body.
  - apply Later_crawl_not_an_array.
  - apply Later_crawl_no_pages.
  - discriminate.
Qed.

(** The theorem at a response whose [pages] is a string. *)
Lemma later_crawl_failure_strings_witness :
  fst (Later.crawl malformed_env "https://acme.vc" example_world)
  = Done "Crawl failed: no structured page content returned.".
Proof.
  apply (proj1 (proj2 (proj2 (proj2
           (later_crawl_failure_strings malformed_env "https://acme.vc"
              example_world))))
           (JObj [("pages", JStr "<html>")]) (JStr "<html>"));
    reflexivity.
Defined.

(** C3 as stated fails: the string returned for a malformed response is
    not the one returned for a transport failure, and a response without
    any [pages] yields no failure string at all. *)
Lemma later_crawl_failure_strings_differ :
  fst (Later.crawl malformed_env "https://acme.vc" example_world)
  = Done "Crawl failed: no structured page content returned." /\
  fst (Later.crawl unreachable_env "https://acme.vc" example_world)
  = Done "Crawl failed: exception thrown." /\
  fst (Later.crawl malformed_env "https://acme.vc" example_world)
  <> fst (Later.crawl unreachable_env "https://acme.vc" example_world) /\
  fst (Later.crawl (with_crawl_replies example_env (fun _ => Returns (JObj [])))
         "https://acme.vc" example_world)
  = Done "".
Proof.
  split; [|split; [|split]]; try reflexivity. discriminate.
Qed.

(* ===================================================================== *)
(** ** A cycle in which the calls succeed *)
(* ===================================================================== *)

Section Cycle.
Variable env : Env.
Variable w : World.
Variable t : Trigger.t.
Variables ps1 ps2 : list Page.t.
Variables thread run_id : string.
Variable n : nat.
Variable result : jsval.
Hypothesis Hcalls : CallsSucceed env w t ps1 ps2 thread run_id n result.
Variable fuel : nat.
Hypothesis Hfuel : n < fuel.

(** Runs a cycle up to the write phase. *)
Ltac to_write_phase crawl_top_level :=
  destruct Hcalls as
    [Hread Hq [d1 [e1 [Hc1 [Ht1 Hp1]]]] [d2 [e2 [Hc2 [Ht2 Hp2]]]]
       Hth Hmsg Hrun Hpend Hcomp [msgs [Hlist Htext]]];
  exec; rewrite Hread; exec; cbn [truthy]; rewrite Hq; exec;
  erewrite crawl_top_level;
    [ | cbn [crawls]; exact Hc1 | exact Hp1 | exact Ht1 ];
  unfold after_post; exec;
  erewrite crawl_top_level;
    [ | cbn [crawls]; exact Hc2 | exact Hp2 | exact Ht2 ];
  unfold after_post; exec;
  rewrite Hth, Hmsg, Hrun; exec;
  rewrite (poll_until_completed_done env thread run_id n);
    [ | assumption | cbn [polls]; assumption ..];
  exec; rewrite Hlist, Htext; exec.

Ltac same_world :=
  unfold work_events, report_of, audit_of, url_body, urls_body; flat;
  reflexivity.

Lemma Index_run_success :
  WritesSucceed env ->
  Index.run env fuel w
  = (Done tt,
     mkWorld
       (update_status (Trigger.id t) "complete"
          (insert_audit (audit_of t "Report stored")
             (insert_report (report_of t result) (store w))))
       (trace w
        ++ [SelectQueued;
            ConsoleLog [JStr "Processing trigger:"; JNum (Trigger.id t)]]
        ++ work_events env urls_body t ps1 ps2 thread run_id n
        ++ [InsertReport (report_of t result);
            InsertAudit (audit_of t "Report stored");
            UpdateStatus (Trigger.id t) "complete";
            ConsoleLog
              [JStr ("Assessment complete for: " ++ Trigger.company_name t)]])
       (S (S (crawls w))) (polls w + S n)).
Proof.
  intros [Hr [Ha Hu]]. unfold Index.run.
  to_write_phase Index_crawl_top_level.
  rewrite Hr, Ha, Hu. exec. same_world.
Qed.

Lemma Later_run_success :
  WritesSucceed env ->
  Later.run env fuel w
  = (Done tt,
     mkWorld
       (update_status (Trigger.id t) "complete"
          (insert_audit (audit_of t "Assessment stored successfully")
             (insert_report (report_of t result) (store w))))
       (trace w
        ++ [SelectQueued;
            ConsoleLog
              [JStr ("🚀 Processing trigger: "
                     ++ Z_to_string (Trigger.id t))]]
        ++ work_events env urls_body t ps1 ps2 thread run_id n
        ++ [InsertReport (report_of t result);
            InsertAudit (audit_of t "Assessment stored successfully");
            UpdateStatus (Trigger.id t) "complete";
            ConsoleLog
              [JStr ("✅ Assessment completed: " ++ Trigger.company_name t)]])
       (S (S (crawls w))) (polls w + S n)).
Proof.
  intros [Hr [Ha Hu]]. unfold Later.run.
  to_write_phase Later_crawl_top_level.
  rewrite Hr, Ha, Hu. exec. same_world.
Qed.

Lemma Earliest_run_success :
  WritesSucceed env ->
  Earliest.run env fuel w
  = (Done tt,
     mkWorld
       (insert_audit (audit_of t "Report stored")
          (update_status (Trigger.id t) "complete"
             (insert_report (report_of t result) (store w))))
       (trace w
        ++ [SelectQueued]
        ++ work_events env url_body t ps1 ps2 thread run_id n
        ++ [InsertReport (report_of t result);
            UpdateStatus (Trigger.id t) "complete";
            InsertAudit (audit_of t "Report stored")])
       (S (S (crawls w))) (polls w + S n)).
Proof.
  intros [Hr [Ha Hu]]. unfold Earliest.run.
  to_write_phase Earliest_crawl_top_level.
  rewrite Hr, Hu, Ha. exec. same_world.
Qed.

(** The audit insert throws after the report insert went through. *)
Lemma Index_run_audit_throws e :
  insert_report_reply env = Returns Stored ->
  insert_audit_reply env = Throws e ->
  Index.run env fuel w
  = (Raised e,
     mkWorld (insert_report (report_of t result) (store w))
       (trace w
        ++ [SelectQueued;
            ConsoleLog [JStr "Processing trigger:"; JNum (Trigger.id t)]]
        ++ work_events env urls_body t ps1 ps2 thread run_id n
        ++ [InsertReport (report_of t result);
            InsertAudit (audit_of t "Report stored")])
       (S (S (crawls w))) (polls w + S n)).
Proof.
  intros Hr Ha. unfold Index.run.
  to_write_phase Index_crawl_top_level.
  rewrite Hr, Ha. exec. same_world.
Qed.

Lemma Later_run_audit_throws e :
  insert_report_reply env = Returns Stored ->
  insert_audit_reply env = Throws e ->
  Later.run env fuel w
  = (Done tt,
     mkWorld (insert_report (report_of t result) (store w))
       (trace w
        ++ [SelectQueued;
            ConsoleLog
              [JStr ("🚀 Processing trigger: "
                     ++ Z_to_string (Trigger.id t))]]
        ++ work_events env urls_body t ps1 ps2 thread run_id n
        ++ [InsertReport (report_of t result);
            InsertAudit (audit_of t "Assessment stored successfully");
            ConsoleError
              [JStr "❌ OpenAI or Supabase write failed:"; err_payload e]])
       (S (S (crawls w))) (polls w + S n)).
Proof.
  intros Hr Ha. unfold Later.run.
  to_write_phase Later_crawl_top_level.
  rewrite Hr, Ha. exec. same_world.
Qed.
End Cycle.

(* ===================================================================== *)
(** ** The writes of a cycle *)
(* ===================================================================== *)

Lemma store_writes_app a b :
  store_writes (a ++ b) = (store_writes a ++ store_writes b)%list.
Proof. apply filter_app. Qed.

Lemma store_writes_poll_events thread run_id n :
  store_writes (poll_events thread run_id n) = [].
Proof. induction n as [|n IH]; [reflexivity | exact IH]. Qed.

Lemma store_writes_work_events env body t ps1 ps2 thread run_id n :
  store_writes (work_events env body t ps1 ps2 thread run_id n) = [].
Proof.
  unfold work_events. rewrite !store_writes_app, store_writes_poll_events.
  reflexivity.
Qed.

Lemma select_queued_In s t :
  select_queued s = [t] ->
  In t (CompanyAssessmentTrigger s) /\ Trigger.status t = "queued".
Proof.
  unfold select_queued. intros H.
  assert (Hin : In t (filter is_queued (CompanyAssessmentTrigger s))).
  { destruct (filter is_queued (CompanyAssessmentTrigger s)) as [|x l];
      [discriminate|]. injection H as ->. left. reflexivity. }
  apply filter_In in Hin. destruct Hin as [Hin Hq]. split; [exact Hin|].
  apply String.eqb_eq. exact Hq.
Qed.

Lemma update_status_In s t st :
  In t (CompanyAssessmentTrigger s) ->
  In (set_status st t)
    (CompanyAssessmentTrigger (update_status (Trigger.id t) st s)).
Proof.
  intros Hin. unfold update_status. cbn [CompanyAssessmentTrigger].
  apply in_map_iff. exists t. rewrite Z.eqb_refl. split; [reflexivity | exact Hin].
Qed.

Ltac writes_of_trace :=
  eexists; split; [reflexivity|];
  rewrite !store_writes_app, store_writes_work_events; reflexivity.

(** C1, as amended.  In a cycle in which the read returns one queued
    trigger and every call succeeds, each revision inserts exactly one
    report row and one audit row and updates that trigger's status to
    [complete], the report insert first.  In [src/index.js] and in the
    later revision the audit insert precedes the status update; in the
    earliest revision the status update precedes the audit insert. *)
Theorem successful_cycle_writes :
  forall env w t ps1 ps2 thread run_id n result fuel,
    CallsSucceed env w t ps1 ps2 thread run_id n result ->
    WritesSucceed env ->
    n < fuel ->
    let r := report_of t result in
    let i := Trigger.id t in
    completes_with (Index.run env fuel) w
      [InsertReport r; InsertAudit (audit_of t "Report stored");
       UpdateStatus i "complete"]
      (assessed t result "Report stored" (store w)) /\
    completes_with (Later.run env fuel) w
      [InsertReport r; InsertAudit (audit_of t "Assessment stored successfully");
       UpdateStatus i "complete"]
      (assessed t result "Assessment stored successfully" (store w)) /\
    completes_with (Earliest.run env fuel) w
      [InsertReport r; UpdateStatus i "complete";
       InsertAudit (audit_of t "Report stored")]
      (assessed t result "Report stored" (store w)) /\
    In (set_status "complete" t)
      (CompanyAssessmentTrigger (update_status i "complete" (store w))).
Proof.
  intros env w t ps1 ps2 thread run_id n result fuel Hcalls Hwrites Hfuel r i.
  split; [|split; [|split]].
  - eexists. split; [|split].
    + exact (Index_run_success env w t ps1 ps2 thread run_id n result Hcalls
               fuel Hfuel Hwrites).
    + reflexivity.
    + writes_of_trace.
  - eexists. split; [|split].
    + exact (Later_run_success env w t ps1 ps2 thread run_id n result Hcalls
               fuel Hfuel Hwrites).
    + reflexivity.
    + writes_of_trace.
  - eexists. split; [|split].
    + exact (Earliest_run_success env w t ps1 ps2 thread run_id n result Hcalls
               fuel Hfuel Hwrites).
    + reflexivity.
    + writes_of_trace.
  - apply update_status_In.
    exact (proj1 (select_queued_In _ _ (one_queued _ _ _ _ _ _ _ _ _ Hcalls))).
Qed.

Lemma example_calls_succeed :
  CallsSucceed example_env example_world acme [home_page "https://acme.vc"]
    [home_page "https://widget.co"] "thread_1" "run_1" 2 (JStr "REPORT").
Proof.
  constructor; try reflexivity.
  - exists (JObj [("pages", JArr [home "https://acme.vc"])]),
      [home "https://acme.vc"].
    split; [reflexivity|]. split.
    + eexists. split; reflexivity.
    + repeat constructor.
  - exists (JObj [("pages", JArr [home "https://widget.co"])]),
      [home "https://widget.co"].
    split; [reflexivity|]. split.
    + eexists. split; reflexivity.
    + repeat constructor.
  - intros k Hk. exists "in_progress". split; [|discriminate].
    destruct k as [|[|k]]; [reflexivity | reflexivity | lia].
  - exists (listing "REPORT"). split; reflexivity.
Qed.

Lemma example_writes_succeed : WritesSucceed example_env.
Proof. repeat split. Qed.

(** The theorem at the example of the specification. *)
Lemma successful_cycle_writes_witness :
  completes_with (Index.run example_env 3) example_world
    [InsertReport (report_of acme (JStr "REPORT"));
     InsertAudit (audit_of acme "Report stored");
     UpdateStatus (Trigger.id acme) "complete"]
    (assessed acme (JStr "REPORT") "Report stored" (store example_world)).
Proof.
  refine (proj1 (successful_cycle_writes example_env example_world acme
                   [home_page "https://acme.vc"] [home_page "https://widget.co"]
                   "thread_1" "run_1" 2 (JStr "REPORT") 3
                   example_calls_succeed example_writes_succeed _)).
  lia.
Defined.

(** C1 as stated fails in the earliest revision: in the example, where
    every call succeeds, it sends the status update before the audit
    insert. *)
Lemma earliest_updates_status_before_audit :
  fst (Earliest.run example_env 3 example_world) = Done tt /\
  store_writes (trace (snd (Earliest.run example_env 3 example_world)))
  = [InsertReport (report_of acme (JStr "REPORT"));
     UpdateStatus 1 "complete";
     InsertAudit (audit_of acme "Report stored")] /\
  ~ report_audit_status_order
      (trace (snd (Earliest.run example_env 3 example_world))).
Proof.
  split; [vm_compute; reflexivity|]. split; [vm_compute; reflexivity|].
  intros [r [a [i H]]]. vm_compute in H. discriminate H.
Qed.

(* ===================================================================== *)
(** ** A failure inside the write phase *)
(* ===================================================================== *)

Lemma left_queued_after_report w w' t r a evs :
  select_queued (store w) = [t] ->
  store w' = insert_report r (store w) ->
  trace w' = (trace w ++ evs)%list ->
  store_writes evs = [InsertReport r; InsertAudit a] ->
  left_queued w w' t r a.
Proof.
  intros Hq Hs Ht Hw. destruct (select_queued_In _ _ Hq) as [Hin Hst].
  unfold left_queued. rewrite Hs. repeat split; try assumption; try reflexivity.
  exists evs. split; assumption.
Qed.

(** X15.  In [src/index.js] and in the later revision the call between
    the report insert and the status update is the audit insert.  When
    every call up to the report insert succeeds and the audit insert
    throws, the cycle ends (with the error in [src/index.js], after
    logging it in the later revision) without sending the status update:
    the report row is stored, the trigger table is unchanged, the trigger
    is still [queued], and the next read of queued triggers returns it
    again. *)
Theorem audit_throw_leaves_trigger_queued :
  forall env w t ps1 ps2 thread run_id n result fuel e,
    CallsSucceed env w t ps1 ps2 thread run_id n result ->
    insert_report_reply env = Returns Stored ->
    insert_audit_reply env = Throws e ->
    n < fuel ->
    (exists w',
       Index.run env fuel w = (Raised e, w') /\
       left_queued w w' t (report_of t result) (audit_of t "Report stored")) /\
    (exists w',
       Later.run env fuel w = (Done tt, w') /\
       left_queued w w' t (report_of t result)
         (audit_of t "Assessment stored successfully")).
Proof.
  intros env w t ps1 ps2 thread run_id n result fuel e Hcalls Hr Ha Hfuel.
  pose proof (one_queued _ _ _ _ _ _ _ _ _ Hcalls) as Hq.
  split.
  - eexists. split.
    + exact (Index_run_audit_throws env w t ps1 ps2 thread run_id n result
               Hcalls fuel Hfuel e Hr Ha).
    + eapply left_queued_after_report; [exact Hq | reflexivity | reflexivity |].
      rewrite !store_writes_app, store_writes_work_events. reflexivity.
  - eexists. split.
    + exact (Later_run_audit_throws env w t ps1 ps2 thread run_id n result
               Hcalls fuel Hfuel e Hr Ha).
    + eapply left_queued_after_report; [exact Hq | reflexivity | reflexivity |].
      rewrite !store_writes_app, store_writes_work_events. reflexivity.
Qed.

Lemma audit_fails_calls_succeed :
  CallsSucceed audit_fails_env example_world acme
    [home_page "https://acme.vc"] [home_page "https://widget.co"]
    "thread_1" "run_1" 2 (JStr "REPORT").
Proof.
  destruct example_calls_succeed. constructor; assumption.
Qed.

(** The theorem at the example with the audit insert throwing. *)
Lemma audit_throw_leaves_trigger_queued_witness :
  exists w',
    Later.run audit_fails_env 3 example_world = (Done tt, w') /\
    left_queued example_world w' acme (report_of acme (JStr "REPORT"))
      (audit_of acme "Assessment stored successfully").
Proof.
  refine (proj2 (audit_throw_leaves_trigger_queued audit_fails_env
                   example_world acme [home_page "https://acme.vc"]
                   [home_page "https://widget.co"] "thread_1" "run_1" 2
                   (JStr "REPORT") 3 insert_error audit_fails_calls_succeed
                   eq_refl eq_refl _)).
  lia.
Defined.

(* ===================================================================== *)
(** ** Cycles that end at the read *)
(* ===================================================================== *)

(** C4.  When the read succeeds and returns no queued trigger, the cycle
    of every revision returns after the read: the read is its only call
    (no crawl request, no assistant call, no write, no console line) and
    the store is as it was. *)
Theorem no_queued_trigger_no_work :
  forall env fuel w,
    select_error env = None ->
    select_queued (store w) = [] ->
    Index.run env fuel w = (Done tt, after_read w) /\
    Later.run env fuel w = (Done tt, after_read w) /\
    Earliest.run env fuel w = (Done tt, after_read w).
Proof.
  intros env fuel w Hread Hq. repeat split.
  - unfold Index.run. exec. rewrite Hread. exec. cbn [truthy]. rewrite Hq.
    reflexivity.
  - unfold Later.run. exec. rewrite Hread. exec. cbn [truthy]. rewrite Hq.
    reflexivity.
  - unfold Earliest.run. exec. rewrite Hread. exec. rewrite Hq. reflexivity.
Qed.

(** The theorem at a store without queued triggers. *)
Lemma no_queued_trigger_no_work_witness :
  Index.run example_env 3 idle_world = (Done tt, after_read idle_world).
Proof.
  exact (proj1 (no_queued_trigger_no_work example_env 3 idle_world
                  eq_refl eq_refl)).
Defined.

(** C9.  When the read of queued triggers returns an error, the cycle of
    [src/index.js] and of the later revision logs the error and returns:
    after the read the only event is the console line, so no crawl
    request, no assistant call and no write is made, and the store, with
    every trigger in it, is as it was. *)
Theorem read_error_aborts_cycle :
  forall env fuel w e,
    select_error env = Some e ->
    Index.run env fuel w
    = (Done tt,
       mkWorld (store w)
         (trace w
          ++ [SelectQueued;
              ConsoleError [JStr "Supabase query error:"; JObj e]])
         (crawls w) (polls w)) /\
    Later.run env fuel w
    = (Done tt,
       mkWorld (store w)
         (trace w
          ++ [SelectQueued;
              ConsoleError [JStr "❌ Supabase query error:"; JObj e]])
         (crawls w) (polls w)).
Proof.
  intros env fuel w e Hread. split.
  - unfold Index.run. exec. rewrite Hread. exec. cbn [truthy]. exec. flat.
    reflexivity.
  - unfold Later.run. exec. rewrite Hread. exec. cbn [truthy]. exec. flat.
    reflexivity.
Qed.

(** The theorem at the example with the read failing. *)
Lemma read_error_aborts_cycle_witness :
  Index.run (with_select_error example_env read_error) 3 example_world
  = (Done tt,
     mkWorld (store example_world)
       [SelectQueued;
        ConsoleError [JStr "Supabase query error:"; JObj read_error]]
       0 0).
Proof.
  exact (proj1 (read_error_aborts_cycle
                  (with_select_error example_env read_error) 3 example_world
                  read_error eq_refl)).
Defined.

(** The earliest revision does not look at [error]: on a failed read
    [data] is [null] and the cycle returns without a console line. *)
Lemma Earliest_read_error_returns_silently env fuel w e :
  select_error env = Some e ->
  Earliest.run env fuel w = (Done tt, after_read w).
Proof.
  intros Hread. unfold Earliest.run. exec. rewrite Hread. reflexivity.
Qed.

(* ===================================================================== *)
(** ** The wait for the run *)
(* ===================================================================== *)

Section Waiting.
Variable env : Env.
Variable statuses : nat -> string.
Variables thread run_id : string.

(** One iteration of the wait. *)
Lemma poll_until_completed_S e fuel :
  poll_until_completed e (S fuel) thread run_id
  = (status <- runs_retrieve e thread run_id ;;
     if String.eqb status "completed" then ret tt
     else sleep 2000 ;; poll_until_completed e fuel thread run_id).
Proof. reflexivity. Qed.

(** Within [fuel] iterations the wait either meets a [completed] or is
    still going on. *)
Lemma poll_completed_or_spinning fuel : forall w,
  (exists n, n < fuel /\ statuses (polls w + n) = "completed") \/
  fst (poll_until_completed (with_statuses env statuses) fuel thread run_id w)
  = Spinning.
Proof.
  induction fuel as [|fuel IH]; intros w.
  - right. reflexivity.
  - destruct (String.eqb_spec (statuses (polls w)) "completed") as [Hc|Hc].
    + left. exists 0. rewrite Nat.add_0_r. split; [lia | exact Hc].
    + destruct (IH (mkWorld (store w)
                      ((trace w ++ [RunRetrieve thread run_id]) ++ [Sleep 2000])
                      (crawls w) (S (polls w)))) as [[n [Hn Hs]]|Hspin].
      * left. exists (S n). cbn [polls] in Hs.
        rewrite Nat.add_succ_comm in Hs. split; [lia | exact Hs].
      * right. rewrite poll_until_completed_S. exec.
        cbn [poll_reply with_statuses].
        destruct (String.eqb_spec (statuses (polls w)) "completed");
          [contradiction | exact Hspin].
Qed.

(** A [completed] at retrieval [n] ends the wait within [S n] iterations. *)
Lemma poll_completed_within n : forall w,
  statuses (polls w + n) = "completed" ->
  exists w',
    poll_until_completed (with_statuses env statuses) (S n) thread run_id w
    = (Done tt, w').
Proof.
  induction n as [|n IH]; intros w Hc; rewrite poll_until_completed_S; exec;
    cbn [poll_reply with_statuses];
    destruct (String.eqb_spec (statuses (polls w)) "completed") as [Hnow|Hnow].
  - eexists. reflexivity.
  - rewrite Nat.add_0_r in Hc. contradiction.
  - eexists. reflexivity.
  - apply IH. cbn [polls]. rewrite Nat.add_succ_comm. exact Hc.
Qed.
End Waiting.

(** C6.  Let the run report the statuses [statuses], one per retrieval.
    The wait returns, for some number of iterations, exactly when some
    retrieval from the current one on reports [completed].  If the run
    reports one and the same status other than [completed] for ever
    ([failed], [cancelled], [expired], ...), the wait is still going on
    after any number of iterations. *)
Theorem polling_returns_iff_completed :
  forall env statuses thread run_id w,
    ((exists fuel w',
        poll_until_completed (with_statuses env statuses) fuel thread run_id w
        = (Done tt, w')) <->
     (exists n, statuses (polls w + n) = "completed")) /\
    (forall s,
       s <> "completed" ->
       forall fuel,
         fst (poll_until_completed (with_statuses env (fun _ => s)) fuel
                thread run_id w)
         = Spinning).
Proof.
  intros env statuses thread run_id w. split; [split|].
  - intros [fuel [w' Hdone]].
    destruct (poll_completed_or_spinning env statuses thread run_id fuel w)
      as [[n [_ Hn]]|Hspin].
    + exists n. exact Hn.
    + rewrite Hdone in Hspin. discriminate Hspin.
  - intros [n Hn]. exists (S n).
    exact (poll_completed_within env statuses thread run_id n w Hn).
  - intros s Hs fuel. apply poll_until_completed_spins.
    intros k _. exists s. split; [reflexivity | exact Hs].
Qed.

(** The theorem at a run that stays [failed], watched for seven
    iterations. *)
Lemma polling_returns_iff_completed_witness :
  "failed" <> "completed" /\
  fst (poll_until_completed (with_statuses example_env (fun _ => "failed"))
         7 "thread_1" "run_1" example_world)
  = Spinning.
Proof.
  assert (Hs : "failed" <> "completed") by discriminate.
  split; [exact Hs|].
  exact (proj2 (polling_returns_iff_completed example_env (fun _ => "failed")
                  "thread_1" "run_1" example_world) "failed" Hs 7).
Defined.

(* ===================================================================== *)
(** ** The prompt *)
(* ===================================================================== *)

Lemma append_assoc (a b c : string) : (a ++ b) ++ c = a ++ b ++ c.
Proof.
  induction a as [|x a IH]; [reflexivity|].
  change (String x ((a ++ b) ++ c) = String x (a ++ b ++ c)).
  rewrite IH. reflexivity.
Qed.

Lemma contains_prefix s post : contains s (s ++ post).
Proof. exists "", post. reflexivity. Qed.

Lemma contains_prefix3 a b c post : contains (a ++ b ++ c) (a ++ b ++ c ++ post).
Proof. exists "", post. rewrite !append_assoc. reflexivity. Qed.

Lemma contains_skip s a r : contains s r -> contains s (a ++ r).
Proof.
  intros [pre [post ->]]. exists (a ++ pre), post. rewrite append_assoc.
  reflexivity.
Qed.

(** Looks for the needle along the pieces the prompt is appended from. *)
Ltac find_piece :=
  unfold prompt;
  repeat first
    [ apply contains_prefix | apply contains_prefix3 | apply contains_skip ].

(** C5.  The prompt built from a trigger and the two crawled texts
    contains the investor name, the investor site, the company URL, the
    supplemental links as [JSON.stringify] prints them, the context, and
    each crawled text right under its heading: the investor text on the
    line after [## Investor Pages], the company text on the line after
    [## Company Pages]. *)
Theorem prompt_contains_inputs :
  forall trigger investorText companyText,
    let p := prompt trigger investorText companyText in
    contains (Trigger.investor_name trigger) p /\
    contains (Trigger.investor_site trigger) p /\
    contains (Trigger.company_url trigger) p /\
    contains (to_string (JSON_stringify (Trigger.supplemental_links trigger))) p /\
    contains (Trigger.context trigger) p /\
    contains ("## Investor Pages" ++ nl ++ investorText) p /\
    contains ("## Company Pages" ++ nl ++ companyText) p.
Proof.
  intros trigger investorText companyText p. subst p.
  repeat split; find_piece.
Qed.

(** The links of a row that has them are printed as JSON text. *)
Lemma supplemental_links_as_json (links : jsval) :
  links <> JUndefined ->
  to_string (JSON_stringify links) = json_text links.
Proof. intros H. destruct links; [contradiction | reflexivity ..]. Qed.

(* ===================================================================== *)
(** ** The crawl requests of a cycle *)
(* ===================================================================== *)

Lemma url_body_ok targets ep target :
  In target targets ->
  crawl_request_ok targets (CrawlPost ep (url_body target)).
Proof.
  intros Hin. split.
  - repeat split.
  - exists target. split; [exact Hin | left; reflexivity].
Qed.

Lemma urls_body_ok targets ep target :
  In target targets ->
  crawl_request_ok targets (CrawlPost ep (urls_body target)).
Proof.
  intros Hin. split.
  - repeat split.
  - exists target. split; [exact Hin | right; reflexivity].
Qed.

Section CrawlRequests.
Variable env : Env.
Variable targets : list string.
Variable url : string.
Hypothesis Hin : In url targets.

Lemma Earliest_crawl_emits :
  emits (crawl_request_ok targets) (Earliest.crawl env url).
Proof.
  unfold Earliest.crawl. apply emits_bind.
  - apply emits_axios_post. apply url_body_ok. exact Hin.
  - intros d. emits_walk.
Qed.

Lemma Index_crawl_emits :
  emits (crawl_request_ok targets) (Index.crawl env url).
Proof.
  unfold Index.crawl. apply emits_bind.
  - apply emits_axios_post. apply urls_body_ok. exact Hin.
  - intros d. emits_walk.
Qed.

Lemma Later_crawl_emits :
  emits (crawl_request_ok targets) (Later.crawl env url).
Proof.
  unfold Later.crawl. apply emits_try_catch.
  - apply emits_bind.
    + apply emits_axios_post. apply urls_body_ok. exact Hin.
    + intros d. emits_walk; apply emits_console_error; exact I.
  - intros e. emits_walk; apply emits_console_error; exact I.
Qed.
End CrawlRequests.

(** Every event but a crawl request satisfies [crawl_request_ok]. *)
#[export] Hint Extern 1 (crawl_request_ok _ _) => exact I : emits.

Ltac crawl_emits :=
  first [ apply Index_crawl_emits | apply Later_crawl_emits
        | apply Earliest_crawl_emits ];
  cbn [In]; auto.

(** Runs the read of a cycle and splits on its reply. *)
Ltac after_select t rest Hq :=
  erewrite bind_Done by (exec; reflexivity);
  cbv beta; cbn [data error];
  match goal with
  | |- context [select_error ?env] => destruct (select_error env)
  end;
  cbn [data error truthy];
  [ | match goal with
      | |- context [select_queued ?s] =>
          destruct (select_queued s) as [|t rest] eqn:Hq
      end ].

Ltac run_emits := emits_walk; try crawl_emits.

Section RunRequests.
Variable env : Env.
Variable fuel : nat.
Variable w : World.

Lemma Index_run_requests :
  extends (crawl_request_ok (sites_of (store w))) w (snd (Index.run env fuel w)).
Proof.
  unfold Index.run, sites_of. after_select t rest Hq;
    (apply emits_apply; [run_emits | close_extends]).
Qed.

Lemma Later_run_requests :
  extends (crawl_request_ok (sites_of (store w))) w (snd (Later.run env fuel w)).
Proof.
  unfold Later.run, sites_of. after_select t rest Hq;
    (apply emits_apply; [run_emits | close_extends]).
Qed.

Lemma Earliest_run_requests :
  extends (crawl_request_ok (sites_of (store w))) w
    (snd (Earliest.run env fuel w)).
Proof.
  unfold Earliest.run, sites_of. after_select t rest Hq;
    (apply emits_apply; [run_emits | close_extends]).
Qed.
End RunRequests.

Ltac posted :=
  eexists; split; [cbn [snd trace]; flat; reflexivity | reflexivity].

Lemma Earliest_crawl_posts_once env url w :
  posts_once env (Earliest.crawl env url) w (url_body url).
Proof.
  unfold posts_once, Earliest.crawl. exec.
  destruct (crawl_reply env (crawls w)) as [d|e]; exec; [|posted].
  destruct (get_prop d "pages") as [pages|e]; exec; [|posted].
  destruct (format_pages pages); exec; posted.
Qed.

Lemma Index_crawl_posts_once env url w :
  posts_once env (Index.crawl env url) w (urls_body url).
Proof.
  unfold posts_once, Index.crawl. exec.
  destruct (crawl_reply env (crawls w)) as [d|e]; exec; [|posted].
  destruct (get_prop d "pages") as [pages|e]; exec; [|posted].
  destruct (format_pages pages); exec; posted.
Qed.

Lemma Later_crawl_posts_once env url w :
  posts_once env (Later.crawl env url) w (urls_body url).
Proof.
  unfold posts_once, Later.crawl. exec.
  destruct (crawl_reply env (crawls w)) as [d|e]; exec; [|posted].
  destruct (get_prop d "pages") as [top|e]; exec; [|posted].
  destruct (negb (isArray (found_pages d top))) eqn:Harr;
    unfold found_pages in Harr; rewrite Harr; exec; [posted|].
  destruct (format_pages _); exec; posted.
Qed.

(** C8.  Each call of [crawl(url)] sends exactly one request to the crawl
    service; its body has [maxPages] 20, [depth] 2, [crawlJs] true and
    [htmlOnly] false, and names the target as [url] in the earliest
    revision and as the one element of [urls] in [src/index.js] and the
    later revision.  Every crawl request of a cycle, however the cycle
    goes, has these parameters and targets the investor site or the
    company URL of the trigger that was read. *)
Theorem crawl_requests_fixed_parameters :
  forall env fuel url w,
    (posts_once env (Earliest.crawl env url) w (url_body url) /\
     posts_once env (Index.crawl env url) w (urls_body url) /\
     posts_once env (Later.crawl env url) w (urls_body url)) /\
    (fixed_crawl_parameters (url_body url) /\
     carries_target (url_body url) url /\
     fixed_crawl_parameters (urls_body url) /\
     carries_target (urls_body url) url) /\
    (extends (crawl_request_ok (sites_of (store w))) w
       (snd (Earliest.run env fuel w)) /\
     extends (crawl_request_ok (sites_of (store w))) w
       (snd (Index.run env fuel w)) /\
     extends (crawl_request_ok (sites_of (store w))) w
       (snd (Later.run env fuel w))).
Proof.
  intros env fuel url w. split; [|split].
  - split; [|split].
    + apply Earliest_crawl_posts_once.
    + apply Index_crawl_posts_once.
    + apply Later_crawl_posts_once.
  - repeat split; first [left; reflexivity | right; reflexivity].
  - split; [|split].
    + apply Earliest_run_requests.
    + apply Index_run_requests.
    + apply Later_run_requests.
Qed.

(* ===================================================================== *)
(** ** The audit rows of a cycle *)
(* ===================================================================== *)

Lemma select_queued_at_most_one s t rest :
  select_queued s = t :: rest -> rest = [].
Proof.
  unfold select_queued.
  destruct (filter is_queued (CompanyAssessmentTrigger s)) as [|x l];
    [discriminate|].
  cbn [firstn]. intros H. injection H as _ H. symmetry. exact H.
Qed.

#[export] Hint Extern 1 (audit_row_ok _ _ _) => exact I : emits.

(** No audit row is written while crawling. *)
Lemma crawl_emits_no_audit env details s url :
  emits (audit_row_ok details s) (Earliest.crawl env url) /\
  emits (audit_row_ok details s) (Index.crawl env url) /\
  emits (audit_row_ok details s) (Later.crawl env url).
Proof.
  split; [|split].
  - unfold Earliest.crawl. emits_walk.
  - unfold Index.crawl. emits_walk.
  - unfold Later.crawl. emits_walk; apply emits_console_error; exact I.
Qed.

Ltac audit_emits t Hq :=
  emits_walk;
  try (first [ apply (proj1 (crawl_emits_no_audit _ _ _ _))
             | apply (proj1 (proj2 (crawl_emits_no_audit _ _ _ _)))
             | apply (proj2 (proj2 (crawl_emits_no_audit _ _ _ _))) ]);
  try (apply emits_insert_audit; exists t; split; [exact Hq | reflexivity]).

Section RunAudits.
Variable env : Env.
Variable fuel : nat.
Variable w : World.

Lemma Index_run_audits :
  extends (audit_row_ok "Report stored" (store w)) w (snd (Index.run env fuel w)).
Proof.
  unfold Index.run. after_select t rest Hq;
    try (rewrite (select_queued_at_most_one _ _ _ Hq) in Hq);
    (apply emits_apply; [audit_emits t Hq | close_extends]).
Qed.

Lemma Later_run_audits :
  extends (audit_row_ok "Assessment stored successfully" (store w)) w
    (snd (Later.run env fuel w)).
Proof.
  unfold Later.run. after_select t rest Hq;
    try (rewrite (select_queued_at_most_one _ _ _ Hq) in Hq);
    (apply emits_apply; [audit_emits t Hq | close_extends]).
Qed.

Lemma Earliest_run_audits :
  extends (audit_row_ok "Report stored" (store w)) w
    (snd (Earliest.run env fuel w)).
Proof.
  unfold Earliest.run. after_select t rest Hq;
    try (rewrite (select_queued_at_most_one _ _ _ Hq) in Hq);
    (apply emits_apply; [audit_emits t Hq | close_extends]).
Qed.
End RunAudits.

(** C10.  Every audit row a cycle inserts, however the cycle goes, is the
    row built from the trigger that was read: its [action] is
    ["Assessment Complete"], its [confidence_score] 90, its [source_url]
    the trigger's [company_url], and its [details] the fixed string of
    the revision, ["Report stored"] in the earliest revision and in
    [src/index.js], ["Assessment stored successfully"] in the later
    revision. *)
Theorem audit_rows_fixed :
  forall env fuel w,
    (extends (audit_row_ok "Report stored" (store w)) w
       (snd (Earliest.run env fuel w)) /\
     extends (audit_row_ok "Report stored" (store w)) w
       (snd (Index.run env fuel w)) /\
     extends (audit_row_ok "Assessment stored successfully" (store w)) w
       (snd (Later.run env fuel w))) /\
    (forall t details,
       Audit.action (audit_of t details) = "Assessment Complete" /\
       Audit.confidence_score (audit_of t details) = 90%Z /\
       Audit.source_url (audit_of t details) = Trigger.company_url t /\
       Audit.details (audit_of t details) = details).
Proof.
  intros env fuel w. split.
  - split; [|split].
    + apply Earliest_run_audits.
    + apply Index_run_audits.
    + apply Later_run_audits.
  - intros t details. repeat split.
Qed.

(* ===================================================================== *)
(** ** What [crawl] makes of any reply *)
(* ===================================================================== *)

Lemma Earliest_crawl_eq env url w :
  Earliest.crawl env url w
  = (outcome_of (plain_crawl_result (crawl_reply env (crawls w))),
     after_post env (url_body url) w).
Proof.
  unfold Earliest.crawl, plain_crawl_result. exec. cbn [bind Monad_Result].
  destruct (crawl_reply env (crawls w)) as [d|e]; [|reflexivity].
  destruct (get_prop d "pages") as [pages|e]; [|reflexivity].
  destruct (format_pages pages); reflexivity.
Qed.

Lemma Index_crawl_eq env url w :
  Index.crawl env url w
  = (outcome_of (plain_crawl_result (crawl_reply env (crawls w))),
     after_post env (urls_body url) w).
Proof.
  unfold Index.crawl, plain_crawl_result. exec. cbn [bind Monad_Result].
  destruct (crawl_reply env (crawls w)) as [d|e]; [|reflexivity].
  destruct (get_prop d "pages") as [pages|e]; [|reflexivity].
  destruct (format_pages pages); reflexivity.
Qed.

Lemma Later_crawl_eq env url w :
  Later.crawl env url w
  = (Done (fst (later_crawl_result (crawl_reply env (crawls w)))),
     mkWorld (store w)
       (trace w
        ++ CrawlPost (CRAWL4AI_ENDPOINT env) (urls_body url)
           :: snd (later_crawl_result (crawl_reply env (crawls w))))
       (S (crawls w)) (polls w)).
Proof.
  unfold Later.crawl, later_crawl_result, crawl_error_line. exec.
  destruct (crawl_reply env (crawls w)) as [d|e]; exec; [|flat; reflexivity].
  destruct (get_prop d "pages") as [top|e]; exec; [|flat; reflexivity].
  destruct (negb (isArray (found_pages d top))) eqn:Harr;
    unfold found_pages in *; rewrite Harr; exec; [flat; reflexivity|].
  destruct (format_pages _); exec; flat; reflexivity.
Qed.

Lemma later_crawl_lines_quiet reply :
  store_writes (snd (later_crawl_result reply)) = [].
Proof.
  unfold later_crawl_result.
  destruct reply as [d|e]; [|reflexivity].
  destruct (get_prop d "pages") as [top|e]; [|reflexivity].
  destruct (negb (isArray (found_pages d top))); [reflexivity|].
  destruct (format_pages _); reflexivity.
Qed.

(* ===================================================================== *)
(** ** Computations that do not write *)
(* ===================================================================== *)

Lemma no_store_write_filter evs :
  Forall no_store_write evs -> store_writes evs = [].
Proof.
  induction 1 as [|ev evs Hev _ IH]; [reflexivity|].
  unfold store_writes in *. cbn [filter]. unfold no_store_write in Hev.
  rewrite Hev. exact IH.
Qed.

(** Closes a goal [quiet m] for a computation whose steps are in sight. *)
Ltac quiet_prim := intros w; exec; (split; [reflexivity | close_extends]).

Section Quiet.
Variable env : Env.

Lemma quiet_ret {A} (a : A) : quiet (ret a).
Proof. quiet_prim. Qed.

Lemma quiet_throw {A} e : quiet (@throw A e).
Proof. quiet_prim. Qed.

Lemma quiet_spin {A} : quiet (@spin A).
Proof. quiet_prim. Qed.

Lemma quiet_eval {A} (r : Result A) : quiet (eval r).
Proof. intros w. destruct r; exec; (split; [reflexivity | close_extends]). Qed.

Lemma quiet_emit ev : no_store_write ev -> quiet (emit ev).
Proof. intros H w. exec. split; [reflexivity | close_extends]. Qed.

Lemma quiet_bind {A B} (m : M A) (f : A -> M B) :
  quiet m -> (forall a, quiet (f a)) -> quiet (x <- m ;; f x).
Proof.
  intros Hm Hf w. destruct (Hm w) as [Hs He]. exec.
  destruct (m w) as [[a|e|] w']; cbn [snd] in *; try (split; assumption).
  destruct (Hf a w') as [Hs' He']. split.
  - rewrite Hs'. exact Hs.
  - eapply extends_trans; eassumption.
Qed.

Lemma quiet_try_catch {A} (m : M A) (h : Exn -> M A) :
  quiet m -> (forall e, quiet (h e)) -> quiet (try_catch m h).
Proof.
  intros Hm Hh w. destruct (Hm w) as [Hs He]. exec.
  destruct (m w) as [[a|e|] w']; cbn [snd] in *; try (split; assumption).
  destruct (Hh e w') as [Hs' He']. split.
  - rewrite Hs'. exact Hs.
  - eapply extends_trans; eassumption.
Qed.

Lemma quiet_select : quiet (supabase_select_queued env).
Proof. intros w. exec. split; [reflexivity | close_extends]. Qed.

Lemma quiet_axios_post body : quiet (axios_post env body).
Proof.
  intros w. exec.
  destruct (crawl_reply env (crawls w)); (split; [reflexivity | close_extends]).
Qed.

Lemma quiet_threads_create : quiet (threads_create env).
Proof.
  apply quiet_bind; [apply quiet_emit; reflexivity | intros _; apply quiet_eval].
Qed.

Lemma quiet_messages_create thread role content :
  quiet (messages_create env thread role content).
Proof.
  apply quiet_bind; [apply quiet_emit; reflexivity | intros _; apply quiet_eval].
Qed.

Lemma quiet_runs_create thread : quiet (runs_create env thread).
Proof.
  apply quiet_bind; [apply quiet_emit; reflexivity | intros _; apply quiet_eval].
Qed.

Lemma quiet_runs_retrieve thread run_id :
  quiet (runs_retrieve env thread run_id).
Proof.
  intros w. exec.
  destruct (poll_reply env (polls w)); (split; [reflexivity | close_extends]).
Qed.

Lemma quiet_messages_list thread : quiet (messages_list env thread).
Proof.
  apply quiet_bind; [apply quiet_emit; reflexivity | intros _; apply quiet_eval].
Qed.

Lemma quiet_console_log args : quiet (console_log args).
Proof. apply quiet_emit. reflexivity. Qed.

Lemma quiet_console_error args : quiet (console_error args).
Proof. apply quiet_emit. reflexivity. Qed.

Lemma quiet_poll_until_completed fuel thread run_id :
  quiet (poll_until_completed env fuel thread run_id).
Proof.
  induction fuel as [|fuel IH]; cbn [poll_until_completed].
  - apply quiet_spin.
  - apply quiet_bind; [apply quiet_runs_retrieve|].
    intros status. destruct (String.eqb status "completed").
    + apply quiet_ret.
    + apply quiet_bind; [apply quiet_emit; reflexivity | intros _; exact IH].
Qed.

Lemma quiet_Earliest_crawl url : quiet (Earliest.crawl env url).
Proof.
  intros w. rewrite Earliest_crawl_eq. unfold after_post.
  split; [reflexivity | close_extends].
Qed.

Lemma quiet_Index_crawl url : quiet (Index.crawl env url).
Proof.
  intros w. rewrite Index_crawl_eq. unfold after_post.
  split; [reflexivity | close_extends].
Qed.

Lemma quiet_Later_crawl url : quiet (Later.crawl env url).
Proof.
  intros w. rewrite Later_crawl_eq. split; [reflexivity|].
  eexists. split; [reflexivity|]. constructor; [reflexivity|].
  unfold later_crawl_result, crawl_error_line.
  destruct (crawl_reply env (crawls w)) as [d|e];
    [|repeat constructor].
  destruct (get_prop d "pages") as [top|e]; [|repeat constructor].
  destruct (negb (isArray (found_pages d top))); [repeat constructor|].
  destruct (format_pages _); repeat constructor.
Qed.
End Quiet.

Create HintDb quiet.
#[export] Hint Resolve quiet_ret quiet_throw quiet_spin quiet_eval quiet_select
  quiet_axios_post quiet_threads_create quiet_messages_create
  quiet_runs_create quiet_runs_retrieve quiet_messages_list quiet_console_log
  quiet_console_error quiet_poll_until_completed quiet_Earliest_crawl
  quiet_Index_crawl quiet_Later_crawl : quiet.

(** Walks through a computation that does not write. *)
Ltac quiet_step :=
  lazymatch goal with
  | |- quiet (bind _ _) => apply quiet_bind; [ | intros ? ]
  | |- quiet (try_catch _ _) => apply quiet_try_catch; [ | intros ? ]
  | |- quiet (match ?x with _ => _ end) => destruct x
  | |- quiet _ => solve [auto with quiet]
  end.

Ltac quiet_walk := cbv zeta; repeat quiet_step.

(* ===================================================================== *)
(** ** How far the writes of a cycle can get *)
(* ===================================================================== *)

Section Reaches.
Variable S : Store -> Store -> list Event -> Prop.
Hypothesis S_nothing : forall s, S s s [].

Lemma quiet_cycle_writes w w' :
  store w' = store w -> extends no_store_write w w' -> cycle_writes S w w'.
Proof.
  intros Hs [evs [Ht Hq]]. exists evs. split; [exact Ht|].
  rewrite Hs, (no_store_write_filter evs Hq). apply S_nothing.
Qed.

(** A quiet step before [w1] does not count. *)
Lemma cycle_writes_after w w1 w2 :
  store w1 = store w -> extends no_store_write w w1 ->
  cycle_writes S w1 w2 -> cycle_writes S w w2.
Proof.
  intros Hs [e1 [Ht1 Hq1]] [e2 [Ht2 HS]]. exists (e1 ++ e2)%list. split.
  - rewrite Ht2, Ht1. symmetry. apply app_assoc.
  - rewrite store_writes_app, (no_store_write_filter e1 Hq1), <- Hs.
    exact HS.
Qed.

(** Nor does a quiet step after [w1]. *)
Lemma cycle_writes_before w w1 w2 :
  cycle_writes S w w1 -> store w2 = store w1 ->
  extends no_store_write w1 w2 -> cycle_writes S w w2.
Proof.
  intros [e1 [Ht1 HS]] Hs [e2 [Ht2 Hq2]]. exists (e1 ++ e2)%list. split.
  - rewrite Ht2, Ht1. symmetry. apply app_assoc.
  - rewrite store_writes_app, (no_store_write_filter e2 Hq2), app_nil_r, Hs.
    exact HS.
Qed.

Lemma reaches_quiet {A} (m : M A) : quiet m -> reaches S m.
Proof.
  intros Hm w. destruct (Hm w) as [Hs He].
  apply quiet_cycle_writes; assumption.
Qed.

Lemma reaches_bind {A B} (m : M A) (f : A -> M B) :
  quiet m -> (forall a, reaches S (f a)) -> reaches S (x <- m ;; f x).
Proof.
  intros Hm Hf w. destruct (Hm w) as [Hs He]. exec.
  destruct (m w) as [[a|e|] w']; cbn [snd] in *;
    try (apply quiet_cycle_writes; assumption).
  eapply cycle_writes_after; [exact Hs | exact He | apply Hf].
Qed.

Lemma reaches_try_catch {A} (m : M A) (h : Exn -> M A) :
  reaches S m -> (forall e, quiet (h e)) -> reaches S (try_catch m h).
Proof.
  intros Hm Hh w. specialize (Hm w). exec.
  destruct (m w) as [[a|e|] w']; cbn [snd] in *; try exact Hm.
  destruct (Hh e w') as [Hs He].
  eapply cycle_writes_before; [exact Hm | exact Hs | exact He].
Qed.

Lemma reaches_apply {A} (m : M A) w w1 :
  reaches S m -> store w1 = store w -> extends no_store_write w w1 ->
  cycle_writes S w (snd (m w1)).
Proof.
  intros Hm Hs He. eapply cycle_writes_after; [exact Hs | exact He | apply Hm].
Qed.
End Reaches.

Lemma stage_of_nothing stage selected details s :
  (forall t, stage t details s s []) ->
  stage_of stage selected details s s [].
Proof.
  intros H. destruct selected as [|t rest]; [split; reflexivity | apply H].
Qed.

(** Tries a stage with every choice of what the store took. *)
Ltac some_stage stage :=
  first [ apply (stage true) | apply (stage false)
        | apply (stage true true true) | apply (stage true true false)
        | apply (stage true false true) | apply (stage true false false)
        | apply (stage false true true) | apply (stage false true false)
        | apply (stage false false true) | apply (stage false false false) ].

(** Splits on the replies to the writes and names the stage reached. *)
Ltac name_stage :=
  intros w; exec;
  repeat match goal with
         | |- context [insert_report_reply ?e] =>
             destruct (insert_report_reply e) as [[|?]|?]; exec
         | |- context [insert_audit_reply ?e] =>
             destruct (insert_audit_reply e) as [[|?]|?]; exec
         | |- context [update_status_reply ?e] =>
             destruct (update_status_reply e) as [[|?]|?]; exec
         end;
  (eexists; split; [cbn [trace]; flat; reflexivity | ]);
  cbn [store store_writes filter is_store_write];
  match goal with
  | |- WriteStage ?t ?d ?s _ (InsertReport (report_of _ ?r) :: _) =>
      first [ apply report_thrown
            | some_stage (audit_thrown t d s r)
            | some_stage (update_sent t d s r) ]
  | |- EarliestWriteStage ?t ?d ?s _ (InsertReport (report_of _ ?r) :: _) =>
      first [ apply e_report_thrown
            | some_stage (e_update_thrown t d s r)
            | some_stage (e_audit_sent t d s r) ]
  end.

Section WritePhase.
Variable env : Env.
Variable t : Trigger.t.
Variable details : string.
Variable result : jsval.
Variable args : list jsval.

(** The write phase of [src/index.js] and of the later revision. *)
Lemma write_phase_stage :
  reaches (WriteStage t details)
    (supabase_insert_report env (report_of t result) ;;
     supabase_insert_audit env (audit_of t details) ;;
     supabase_update_status env (Trigger.id t) "complete" ;;
     console_log args).
Proof. name_stage. Qed.

(** The write phase of the earliest revision. *)
Lemma earliest_write_phase_stage :
  reaches (EarliestWriteStage t details)
    (supabase_insert_report env (report_of t result) ;;
     supabase_update_status env (Trigger.id t) "complete" ;;
     supabase_insert_audit env (audit_of t details)).
Proof. name_stage. Qed.
End WritePhase.

(** Walks through a cycle up to its write phase. *)
Ltac reaches_step nothing :=
  lazymatch goal with
  | |- reaches _ (bind (supabase_insert_report _ _) _) =>
      first [ apply write_phase_stage | apply earliest_write_phase_stage ]
  | |- reaches _ (bind _ _) =>
      apply reaches_bind; [exact nothing | quiet_walk | intros ? ]
  | |- reaches _ (try_catch _ _) =>
      apply reaches_try_catch; [ | intros ?; quiet_walk ]
  | |- reaches _ (match ?x with _ => _ end) => destruct x
  | |- reaches _ _ => apply reaches_quiet; [exact nothing | quiet_walk]
  end.

Ltac reaches_walk nothing := cbv zeta; repeat reaches_step nothing.

Section RunStages.
Variable env : Env.
Variable fuel : nat.
Variable w : World.

Lemma Index_run_stage :
  cycle_writes
    (stage_of WriteStage (select_queued (store w)) "Report stored")
    w (snd (Index.run env fuel w)).
Proof.
  unfold Index.run. after_select t rest Hq;
    (apply reaches_apply; [ | reflexivity | close_extends]).
  - apply reaches_quiet; [intros s; apply stage_of_nothing; constructor|].
    quiet_walk.
  - apply reaches_quiet; [intros s; split; reflexivity | quiet_walk].
  - cbn [stage_of]. reaches_walk (nothing_sent t "Report stored").
Qed.

Lemma Later_run_stage :
  cycle_writes
    (stage_of WriteStage (select_queued (store w))
       "Assessment stored successfully")
    w (snd (Later.run env fuel w)).
Proof.
  unfold Later.run. after_select t rest Hq;
    (apply reaches_apply; [ | reflexivity | close_extends]).
  - apply reaches_quiet; [intros s; apply stage_of_nothing; constructor|].
    quiet_walk.
  - apply reaches_quiet; [intros s; split; reflexivity | quiet_walk].
  - cbn [stage_of].
    reaches_walk (nothing_sent t "Assessment stored successfully").
Qed.

Lemma Earliest_run_stage :
  cycle_writes
    (stage_of EarliestWriteStage (select_queued (store w)) "Report stored")
    w (snd (Earliest.run env fuel w)).
Proof.
  unfold Earliest.run. after_select t rest Hq;
    (apply reaches_apply; [ | reflexivity | close_extends]).
  - apply reaches_quiet; [intros s; apply stage_of_nothing; constructor|].
    quiet_walk.
  - apply reaches_quiet; [intros s; split; reflexivity | quiet_walk].
  - cbn [stage_of]. reaches_walk (e_nothing_sent t "Report stored").
Qed.
End RunStages.


(* ===================================================================== *)
(** ** What a cycle leaves alone *)
(* ===================================================================== *)

Lemma touched_same i rows : Forall2 (touched i) rows rows.
Proof.
  induction rows as [|x rows IH]; constructor; [left; reflexivity | exact IH].
Qed.

Lemma touched_update i s :
  Forall2 (touched i) (CompanyAssessmentTrigger s)
    (CompanyAssessmentTrigger (update_status i "complete" s)).
Proof.
  unfold update_status. cbn [CompanyAssessmentTrigger].
  induction (CompanyAssessmentTrigger s) as [|x rows IH]; cbn [map];
    constructor; [|exact IH].
  destruct (Z.eqb_spec (Trigger.id x) i) as [Hi|Hi].
  - right. split; [exact Hi | reflexivity].
  - left. reflexivity.
Qed.

Lemma store_frame_same i s : store_frame i s s.
Proof.
  split; [left; reflexivity|]. split; [left; reflexivity|]. apply touched_same.
Qed.

(** One write that resolved keeps within the frame. *)
Lemma store_frame_report i s r stored :
  store_frame i s (resolved stored (insert_report r) s).
Proof.
  destruct stored; [|apply store_frame_same].
  split; [right; eexists; reflexivity|]. split; [left; reflexivity|].
  apply touched_same.
Qed.

Lemma frame_then_audit i s s' a stored :
  AuditLogs s' = AuditLogs s ->
  store_frame i s s' -> store_frame i s (resolved stored (insert_audit a) s').
Proof.
  intros Ha [Hr [_ Ht]]. destruct stored; cbn [resolved].
  - split; [exact Hr|]. split; [|exact Ht].
    right. exists a. unfold insert_audit. cbn [AuditLogs]. rewrite Ha.
    reflexivity.
  - split; [exact Hr|]. split; [left; exact Ha | exact Ht].
Qed.

Lemma frame_then_update i s s' stored :
  CompanyAssessmentTrigger s' = CompanyAssessmentTrigger s ->
  store_frame i s s' ->
  store_frame i s (resolved stored (update_status i "complete") s').
Proof.
  intros Htr [Hr [Ha Ht]]. destruct stored; cbn [resolved].
  - split; [exact Hr|]. split; [exact Ha|].
    pose proof (touched_update i s') as Hu. rewrite Htr in Hu. exact Hu.
  - split; [exact Hr|]. split; [exact Ha | exact Ht].
Qed.

Lemma resolved_report_audits r stored s :
  AuditLogs (resolved stored (insert_report r) s) = AuditLogs s.
Proof. destruct stored; reflexivity. Qed.

Lemma resolved_report_triggers r stored s :
  CompanyAssessmentTrigger (resolved stored (insert_report r) s)
  = CompanyAssessmentTrigger s.
Proof. destruct stored; reflexivity. Qed.

Lemma resolved_audit_triggers a stored s :
  CompanyAssessmentTrigger (resolved stored (insert_audit a) s)
  = CompanyAssessmentTrigger s.
Proof. destruct stored; reflexivity. Qed.

Lemma resolved_update_audits i stored s :
  AuditLogs (resolved stored (update_status i "complete") s) = AuditLogs s.
Proof. destruct stored; reflexivity. Qed.

Lemma WriteStage_frame t details s s' ws :
  WriteStage t details s s' ws -> store_frame (Trigger.id t) s s'.
Proof.
  intros H. destruct H.
  - apply store_frame_same.
  - apply store_frame_same.
  - apply store_frame_report.
  - apply frame_then_update.
    + rewrite resolved_audit_triggers. apply resolved_report_triggers.
    + apply frame_then_audit;
        [apply resolved_report_audits | apply store_frame_report].
Qed.

Lemma EarliestWriteStage_frame t details s s' ws :
  EarliestWriteStage t details s s' ws -> store_frame (Trigger.id t) s s'.
Proof.
  intros H. destruct H.
  - apply store_frame_same.
  - apply store_frame_same.
  - apply store_frame_report.
  - apply frame_then_audit.
    + rewrite resolved_update_audits. apply resolved_report_audits.
    + apply frame_then_update;
        [apply resolved_report_triggers | apply store_frame_report].
Qed.

Lemma stage_of_frame stage details s s' ws :
  (forall t, stage t details s s' ws -> store_frame (Trigger.id t) s s') ->
  stage_of stage (select_queued s) details s s' ws ->
  store_frame (selected_id s) s s'.
Proof.
  unfold stage_of, selected_id. intros Hstage.
  destruct (select_queued s) as [|t rest].
  - intros [-> _]. apply store_frame_same.
  - apply Hstage.
Qed.

(** X2.  However a cycle goes, it appends at most one row to
    [CompanyAssessments] and at most one to [AuditLogs] and leaves the
    rows that were there as they were; it adds, removes and reorders no
    trigger row, and the only change it makes to one is setting [status]
    to [complete] on the rows whose [id] is that of the trigger it read. *)
Theorem cycle_store_frame :
  forall env fuel w,
    store_frame (selected_id (store w)) (store w)
      (store (snd (Index.run env fuel w))) /\
    store_frame (selected_id (store w)) (store w)
      (store (snd (Later.run env fuel w))) /\
    store_frame (selected_id (store w)) (store w)
      (store (snd (Earliest.run env fuel w))).
Proof.
  intros env fuel w. split; [|split].
  - destruct (Index_run_stage env fuel w) as [evs [_ H]].
    eapply stage_of_frame; [|exact H]. intros t. apply WriteStage_frame.
  - destruct (Later_run_stage env fuel w) as [evs [_ H]].
    eapply stage_of_frame; [|exact H]. intros t. apply WriteStage_frame.
  - destruct (Earliest_run_stage env fuel w) as [evs [_ H]].
    eapply stage_of_frame; [|exact H]. intros t. apply EarliestWriteStage_frame.
Qed.

(* ===================================================================== *)
(** ** Errors that do not escape *)
(* ===================================================================== *)

Section NeverRaises.

Lemma never_raises_ret {A} (a : A) : never_raises (ret a).
Proof. intros w e. discriminate. Qed.

Lemma never_raises_emit ev : never_raises (emit ev).
Proof. intros w e. discriminate. Qed.

Lemma never_raises_bind {A B} (m : M A) (f : A -> M B) :
  never_raises m -> (forall a, never_raises (f a)) ->
  never_raises (x <- m ;; f x).
Proof.
  intros Hm Hf w e. specialize (Hm w). exec.
  destruct (m w) as [[a|e'|] w']; cbn [fst] in *.
  - apply Hf.
  - exfalso. exact (Hm e' eq_refl).
  - discriminate.
Qed.

(** A handler that does not throw keeps every error of the block in. *)
Lemma never_raises_try_catch {A} (m : M A) (h : Exn -> M A) :
  (forall e, never_raises (h e)) -> never_raises (try_catch m h).
Proof.
  intros Hh w e. exec.
  destruct (m w) as [[a|e'|] w']; cbn [fst]; try discriminate.
  apply Hh.
Qed.

Lemma never_raises_Later_crawl env url : never_raises (Later.crawl env url).
Proof. intros w e. rewrite Later_crawl_eq. discriminate. Qed.

End NeverRaises.

(** X3.  In the later revision no error thrown by the crawl service, by
    the assistant or by a store write escapes [run]: whatever the replies,
    the cycle returns, or is still waiting for the run, and never ends
    with a thrown error. *)
Theorem later_run_never_raises :
  forall env fuel w e, fst (Later.run env fuel w) <> Raised e.
Proof.
  intros env fuel w e. unfold Later.run.
  erewrite bind_Done by (exec; reflexivity). cbv beta. cbn [data error].
  destruct (select_error env); cbn [data error truthy].
  - apply never_raises_emit.
  - destruct (select_queued (store w)) as [|t rest];
      [apply never_raises_ret|].
    apply never_raises_bind; [apply never_raises_emit | intros _].
    apply never_raises_bind; [apply never_raises_Later_crawl | intros text1].
    apply never_raises_bind; [apply never_raises_Later_crawl | intros text2].
    cbv zeta. apply never_raises_try_catch. intros err.
    apply never_raises_emit.
Qed.

(* ===================================================================== *)
(** ** A crawl that fails *)
(* ===================================================================== *)

(** [crawl] of the earliest revision and of [src/index.js] throws on a
    body whose [pages] is no array. *)
Lemma plain_crawl_result_no_array d :
  (forall elems, get_prop d "pages" <> Returns (JArr elems)) ->
  exists e, plain_crawl_result (Returns d) = Throws e.
Proof.
  intros Hno. unfold plain_crawl_result. cbn [bind Monad_Result].
  destruct (get_prop d "pages") as [pages|e] eqn:Hp; [|eexists; reflexivity].
  destruct pages; try (eexists; reflexivity).
  exfalso. exact (Hno xs eq_refl).
Qed.

Section CrawlFails.
Variable env : Env.
Variable fuel : nat.
Variable w : World.
Variable t : Trigger.t.
Hypothesis Hread : select_error env = None.
Hypothesis Hq : select_queued (store w) = [t].

(** Runs a cycle up to its first crawl. *)
Ltac to_first_crawl crawl_eq :=
  exec; rewrite Hread; exec; cbn [truthy]; rewrite Hq; exec;
  rewrite crawl_eq; unfold after_post; cbn [crawls store trace polls].

Lemma Index_run_first_crawl_throws e :
  plain_crawl_result (crawl_reply env (crawls w)) = Throws e ->
  Index.run env fuel w
  = (Raised e,
     mkWorld (store w)
       (trace w
        ++ [SelectQueued;
            ConsoleLog [JStr "Processing trigger:"; JNum (Trigger.id t)];
            CrawlPost (CRAWL4AI_ENDPOINT env)
              (urls_body (Trigger.investor_site t))])
       (S (crawls w)) (polls w)).
Proof.
  intros H1. unfold Index.run. to_first_crawl Index_crawl_eq.
  rewrite H1. cbn [outcome_of]. exec. unfold urls_body. flat. reflexivity.
Qed.

Lemma Earliest_run_first_crawl_throws e :
  plain_crawl_result (crawl_reply env (crawls w)) = Throws e ->
  Earliest.run env fuel w
  = (Raised e,
     mkWorld (store w)
       (trace w
        ++ [SelectQueued;
            CrawlPost (CRAWL4AI_ENDPOINT env)
              (url_body (Trigger.investor_site t))])
       (S (crawls w)) (polls w)).
Proof.
  intros H1. unfold Earliest.run. exec. rewrite Hread. exec. rewrite Hq. exec.
  rewrite Earliest_crawl_eq. unfold after_post. cbn [crawls store trace polls].
  rewrite H1. cbn [outcome_of]. exec. unfold url_body. flat. reflexivity.
Qed.

Lemma Index_run_second_crawl_throws text e :
  plain_crawl_result (crawl_reply env (crawls w)) = Returns text ->
  plain_crawl_result (crawl_reply env (S (crawls w))) = Throws e ->
  Index.run env fuel w
  = (Raised e,
     mkWorld (store w)
       (trace w
        ++ [SelectQueued;
            ConsoleLog [JStr "Processing trigger:"; JNum (Trigger.id t)];
            CrawlPost (CRAWL4AI_ENDPOINT env)
              (urls_body (Trigger.investor_site t));
            CrawlPost (CRAWL4AI_ENDPOINT env)
              (urls_body (Trigger.company_url t))])
       (S (S (crawls w))) (polls w)).
Proof.
  intros H1 H2. unfold Index.run. to_first_crawl Index_crawl_eq.
  rewrite H1. cbn [outcome_of]. exec.
  rewrite Index_crawl_eq. unfold after_post. cbn [crawls store trace polls].
  rewrite H2. cbn [outcome_of]. exec. unfold urls_body. flat. reflexivity.
Qed.

Lemma Earliest_run_second_crawl_throws text e :
  plain_crawl_result (crawl_reply env (crawls w)) = Returns text ->
  plain_crawl_result (crawl_reply env (S (crawls w))) = Throws e ->
  Earliest.run env fuel w
  = (Raised e,
     mkWorld (store w)
       (trace w
        ++ [SelectQueued;
            CrawlPost (CRAWL4AI_ENDPOINT env)
              (url_body (Trigger.investor_site t));
            CrawlPost (CRAWL4AI_ENDPOINT env)
              (url_body (Trigger.company_url t))])
       (S (S (crawls w))) (polls w)).
Proof.
  intros H1 H2. unfold Earliest.run. exec. rewrite Hread. exec. rewrite Hq.
  exec.
  rewrite Earliest_crawl_eq. unfold after_post. cbn [crawls store trace polls].
  rewrite H1. cbn [outcome_of]. exec.
  rewrite Earliest_crawl_eq. unfold after_post. cbn [crawls store trace polls].
  rewrite H2. cbn [outcome_of]. exec. unfold url_body. flat. reflexivity.
Qed.
End CrawlFails.

(** X4.  In [src/index.js] and in the earliest revision an error thrown
    by [crawl] ends the cycle with that error on the spot.  [crawl]
    throws what the request throws (a transport failure), and throws on a
    body whose [pages] is no array.  When the crawl of the investor site
    throws, its request is the last call of the cycle: the company URL is
    not crawled.  When the crawl of the company URL throws, the two crawl
    requests are the last calls.  In both cases no assistant call and no
    write is made, and the store is as it was. *)
Theorem crawl_error_ends_cycle :
  forall env fuel w t e,
    select_error env = None ->
    select_queued (store w) = [t] ->
    (plain_crawl_result (crawl_reply env (crawls w)) = Throws e ->
     Index.run env fuel w
     = (Raised e,
        mkWorld (store w)
          (trace w
           ++ [SelectQueued;
               ConsoleLog [JStr "Processing trigger:"; JNum (Trigger.id t)];
               CrawlPost (CRAWL4AI_ENDPOINT env)
                 (urls_body (Trigger.investor_site t))])
          (S (crawls w)) (polls w)) /\
     Earliest.run env fuel w
     = (Raised e,
        mkWorld (store w)
          (trace w
           ++ [SelectQueued;
               CrawlPost (CRAWL4AI_ENDPOINT env)
                 (url_body (Trigger.investor_site t))])
          (S (crawls w)) (polls w))) /\
    (forall text,
       plain_crawl_result (crawl_reply env (crawls w)) = Returns text ->
       plain_crawl_result (crawl_reply env (S (crawls w))) = Throws e ->
       Index.run env fuel w
       = (Raised e,
          mkWorld (store w)
            (trace w
             ++ [SelectQueued;
                 ConsoleLog [JStr "Processing trigger:"; JNum (Trigger.id t)];
                 CrawlPost (CRAWL4AI_ENDPOINT env)
                   (urls_body (Trigger.investor_site t));
                 CrawlPost (CRAWL4AI_ENDPOINT env)
                   (urls_body (Trigger.company_url t))])
            (S (S (crawls w))) (polls w)) /\
       Earliest.run env fuel w
       = (Raised e,
          mkWorld (store w)
            (trace w
             ++ [SelectQueued;
                 CrawlPost (CRAWL4AI_ENDPOINT env)
                   (url_body (Trigger.investor_site t));
                 CrawlPost (CRAWL4AI_ENDPOINT env)
                   (url_body (Trigger.company_url t))])
            (S (S (crawls w))) (polls w))) /\
    (forall err, plain_crawl_result (Throws err) = Throws err) /\
    (forall d,
       (forall elems, get_prop d "pages" <> Returns (JArr elems)) ->
       exists err, plain_crawl_result (Returns d) = Throws err).
Proof.
  intros env fuel w t e Hread Hq. split; [|split; [|split]].
  - intros H1. split.
    + apply Index_run_first_crawl_throws; assumption.
    + apply Earliest_run_first_crawl_throws; assumption.
  - intros text H1 H2. split.
    + eapply Index_run_second_crawl_throws; eassumption.
    + eapply Earliest_run_second_crawl_throws; eassumption.
  - reflexivity.
  - apply plain_crawl_result_no_array.
Qed.

(** The theorem at the example with the crawl service out of reach. *)
Lemma crawl_error_ends_cycle_witness :
  Index.run unreachable_env 3 example_world
  = (Raised network_error,
     mkWorld (store example_world)
       [SelectQueued; ConsoleLog [JStr "Processing trigger:"; JNum 1];
        CrawlPost "http://crawl4ai.local/crawl" (urls_body "https://acme.vc")]
       1 0).
Proof.
  exact (proj1 (proj1 (crawl_error_ends_cycle unreachable_env 3 example_world
                         acme network_error eq_refl eq_refl)
                  eq_refl)).
Defined.

(* ===================================================================== *)
(** ** Cycles that reach the assistant *)
(* ===================================================================== *)

Lemma store_writes_assistant_events env t text1 text2 thread run_id n :
  store_writes (assistant_events env t text1 text2 thread run_id n) = [].
Proof.
  unfold assistant_events. rewrite !store_writes_app, store_writes_poll_events.
  reflexivity.
Qed.

Lemma store_writes_later_crawl_events env w t :
  store_writes (later_crawl_events env w t) = [].
Proof.
  unfold later_crawl_events. rewrite !store_writes_app.
  cbn [store_writes filter is_store_write].
  fold (store_writes (snd (later_crawl_result (crawl_reply env (crawls w))))).
  fold (store_writes
          (snd (later_crawl_result (crawl_reply env (S (crawls w)))))).
  rewrite !later_crawl_lines_quiet. reflexivity.
Qed.

Lemma plain_crawl_result_top_level d elems ps :
  top_level_pages d elems -> Forall2 carries_page elems ps ->
  plain_crawl_result (Returns d) = Returns (pages_text ps).
Proof.
  intros [fields [-> Hl]] Hps. unfold plain_crawl_result.
  cbn [bind Monad_Result get_prop]. rewrite Hl.
  apply format_pages_carries. exact Hps.
Qed.

Section Assistant.
Variable env : Env.
Variable w : World.
Variable t : Trigger.t.
Variables thread run_id : string.
Variable n : nat.
Variable fuel : nat.
Hypothesis Hread : select_error env = None.
Hypothesis Hq : select_queued (store w) = [t].
Hypothesis Hassist : AssistantRuns env w thread run_id n.
Hypothesis Hfuel : n < fuel.

(** Runs the calls from the thread creation to the end of the wait. *)
Ltac assistant_steps :=
  destruct Hassist as [Hth Hmsg Hrun Hpend Hcomp];
  rewrite Hth, Hmsg, Hrun; exec;
  rewrite (poll_until_completed_done env thread run_id n);
    [ | assumption | cbn [polls]; assumption ..];
  exec.

(** Runs a cycle of the later revision through its two crawls. *)
Ltac later_crawls :=
  unfold Later.run; exec; rewrite Hread; exec; cbn [truthy]; rewrite Hq; exec;
  rewrite Later_crawl_eq; cbn [crawls store trace polls]; exec;
  rewrite Later_crawl_eq; cbn [crawls store trace polls]; exec.

(** Runs a cycle of [src/index.js] through its two crawls. *)
Ltac index_crawls H1 H2 :=
  unfold Index.run; exec; rewrite Hread; exec; cbn [truthy]; rewrite Hq; exec;
  rewrite Index_crawl_eq; unfold after_post; cbn [crawls store trace polls];
  rewrite H1; cbn [outcome_of]; exec;
  rewrite Index_crawl_eq; unfold after_post; cbn [crawls store trace polls];
  rewrite H2; cbn [outcome_of]; exec.

(** Runs a cycle of the earliest revision through its two crawls. *)
Ltac earliest_crawls H1 H2 :=
  unfold Earliest.run; exec; rewrite Hread; exec; rewrite Hq; exec;
  rewrite Earliest_crawl_eq; unfold after_post; cbn [crawls store trace polls];
  rewrite H1; cbn [outcome_of]; exec;
  rewrite Earliest_crawl_eq; unfold after_post; cbn [crawls store trace polls];
  rewrite H2; cbn [outcome_of]; exec.

Ltac same_trace :=
  unfold later_crawl_events, assistant_events, work_events, write_failed_line,
    report_of, audit_of, url_body, urls_body;
  flat; reflexivity.

(** The later revision completes the cycle whatever the crawls return. *)
Lemma Later_run_any_crawl result :
  listing_result env = Returns result ->
  WritesSucceed env ->
  Later.run env fuel w
  = (Done tt,
     mkWorld (assessed t result "Assessment stored successfully" (store w))
       (trace w
        ++ later_crawl_events env w t
        ++ assistant_events env t
             (fst (later_crawl_result (crawl_reply env (crawls w))))
             (fst (later_crawl_result (crawl_reply env (S (crawls w)))))
             thread run_id n
        ++ [InsertReport (report_of t result);
            InsertAudit (audit_of t "Assessment stored successfully");
            UpdateStatus (Trigger.id t) "complete";
            ConsoleLog
              [JStr ("✅ Assessment completed: " ++ Trigger.company_name t)]])
       (S (S (crawls w))) (polls w + S n)).
Proof.
  intros Hlist [Hr [Ha Hu]]. unfold listing_result in Hlist.
  later_crawls. assistant_steps.
  destruct (messages_reply env) as [messages|e]; [|discriminate Hlist].
  cbn [bind Monad_Result] in Hlist. exec. rewrite Hlist, Hr, Ha, Hu. exec.
  unfold assessed. same_trace.
Qed.

(** A listing that cannot be read ends the cycle before the writes. *)
Lemma Later_run_listing_throws e :
  listing_result env = Throws e ->
  Later.run env fuel w
  = (Done tt,
     mkWorld (store w)
       (trace w
        ++ later_crawl_events env w t
        ++ assistant_events env t
             (fst (later_crawl_result (crawl_reply env (crawls w))))
             (fst (later_crawl_result (crawl_reply env (S (crawls w)))))
             thread run_id n
        ++ [write_failed_line e])
       (S (S (crawls w))) (polls w + S n)).
Proof.
  intros Hlist. unfold listing_result in Hlist.
  later_crawls. assistant_steps.
  destruct (messages_reply env) as [messages|e']; cbn [bind Monad_Result] in Hlist.
  - exec. rewrite Hlist. exec. same_trace.
  - injection Hlist as ->. exec. same_trace.
Qed.

Lemma Index_run_listing_throws text1 text2 e :
  plain_crawl_result (crawl_reply env (crawls w)) = Returns text1 ->
  plain_crawl_result (crawl_reply env (S (crawls w))) = Returns text2 ->
  listing_result env = Throws e ->
  Index.run env fuel w
  = (Raised e,
     mkWorld (store w)
       (trace w
        ++ [SelectQueued;
            ConsoleLog [JStr "Processing trigger:"; JNum (Trigger.id t)];
            CrawlPost (CRAWL4AI_ENDPOINT env)
              (urls_body (Trigger.investor_site t));
            CrawlPost (CRAWL4AI_ENDPOINT env)
              (urls_body (Trigger.company_url t))]
        ++ assistant_events env t text1 text2 thread run_id n)
       (S (S (crawls w))) (polls w + S n)).
Proof.
  intros H1 H2 Hlist. unfold listing_result in Hlist.
  index_crawls H1 H2. assistant_steps.
  destruct (messages_reply env) as [messages|e']; cbn [bind Monad_Result] in Hlist.
  - exec. rewrite Hlist. exec. same_trace.
  - injection Hlist as ->. exec. same_trace.
Qed.

(** In the earliest revision the audit insert comes last: when it throws,
    the report is stored and the trigger is already [complete]. *)
Lemma Earliest_run_audit_throws text1 text2 result e :
  plain_crawl_result (crawl_reply env (crawls w)) = Returns text1 ->
  plain_crawl_result (crawl_reply env (S (crawls w))) = Returns text2 ->
  listing_result env = Returns result ->
  insert_report_reply env = Returns Stored ->
  update_status_reply env = Returns Stored ->
  insert_audit_reply env = Throws e ->
  Earliest.run env fuel w
  = (Raised e,
     mkWorld
       (update_status (Trigger.id t) "complete"
          (insert_report (report_of t result) (store w)))
       (trace w
        ++ [SelectQueued;
            CrawlPost (CRAWL4AI_ENDPOINT env)
              (url_body (Trigger.investor_site t));
            CrawlPost (CRAWL4AI_ENDPOINT env)
              (url_body (Trigger.company_url t))]
        ++ assistant_events env t text1 text2 thread run_id n
        ++ [InsertReport (report_of t result);
            UpdateStatus (Trigger.id t) "complete";
            InsertAudit (audit_of t "Report stored")])
       (S (S (crawls w))) (polls w + S n)).
Proof.
  intros H1 H2 Hlist Hr Hu Ha. unfold listing_result in Hlist.
  earliest_crawls H1 H2. assistant_steps.
  destruct (messages_reply env) as [messages|e']; [|discriminate Hlist].
  cbn [bind Monad_Result] in Hlist. exec. rewrite Hlist, Hr, Hu, Ha. exec.
  same_trace.
Qed.
(** The store refuses the audit insert: the call resolves, [run] does not
    look at what it resolves to, and the status update follows. *)
Lemma Index_run_audit_refused text1 text2 result err :
  plain_crawl_result (crawl_reply env (crawls w)) = Returns text1 ->
  plain_crawl_result (crawl_reply env (S (crawls w))) = Returns text2 ->
  listing_result env = Returns result ->
  insert_report_reply env = Returns Stored ->
  insert_audit_reply env = Returns (Refused err) ->
  update_status_reply env = Returns Stored ->
  Index.run env fuel w
  = (Done tt,
     mkWorld
       (update_status (Trigger.id t) "complete"
          (insert_report (report_of t result) (store w)))
       (trace w
        ++ [SelectQueued;
            ConsoleLog [JStr "Processing trigger:"; JNum (Trigger.id t)];
            CrawlPost (CRAWL4AI_ENDPOINT env)
              (urls_body (Trigger.investor_site t));
            CrawlPost (CRAWL4AI_ENDPOINT env)
              (urls_body (Trigger.company_url t))]
        ++ assistant_events env t text1 text2 thread run_id n
        ++ [InsertReport (report_of t result);
            InsertAudit (audit_of t "Report stored");
            UpdateStatus (Trigger.id t) "complete";
            ConsoleLog
              [JStr ("Assessment complete for: " ++ Trigger.company_name t)]])
       (S (S (crawls w))) (polls w + S n)).
Proof.
  intros H1 H2 Hlist Hr Ha Hu. unfold listing_result in Hlist.
  index_crawls H1 H2. assistant_steps.
  destruct (messages_reply env) as [messages|e']; [|discriminate Hlist].
  cbn [bind Monad_Result] in Hlist. exec. rewrite Hlist, Hr, Ha, Hu. exec.
  same_trace.
Qed.

Lemma Later_run_audit_refused result err :
  listing_result env = Returns result ->
  insert_report_reply env = Returns Stored ->
  insert_audit_reply env = Returns (Refused err) ->
  update_status_reply env = Returns Stored ->
  Later.run env fuel w
  = (Done tt,
     mkWorld
       (update_status (Trigger.id t) "complete"
          (insert_report (report_of t result) (store w)))
       (trace w
        ++ later_crawl_events env w t
        ++ assistant_events env t
             (fst (later_crawl_result (crawl_reply env (crawls w))))
             (fst (later_crawl_result (crawl_reply env (S (crawls w)))))
             thread run_id n
        ++ [InsertReport (report_of t result);
            InsertAudit (audit_of t "Assessment stored successfully");
            UpdateStatus (Trigger.id t) "complete";
            ConsoleLog
              [JStr ("✅ Assessment completed: " ++ Trigger.company_name t)]])
       (S (S (crawls w))) (polls w + S n)).
Proof.
  intros Hlist Hr Ha Hu. unfold listing_result in Hlist.
  later_crawls. assistant_steps.
  destruct (messages_reply env) as [messages|e']; [|discriminate Hlist].
  cbn [bind Monad_Result] in Hlist. exec. rewrite Hlist, Hr, Ha, Hu. exec.
  same_trace.
Qed.
End Assistant.

Lemma example_assistant_runs env :
  thread_reply env = thread_reply example_env ->
  message_reply env = message_reply example_env ->
  run_reply env = run_reply example_env ->
  poll_reply env = poll_reply example_env ->
  AssistantRuns env example_world "thread_1" "run_1" 2.
Proof.
  intros Hth Hmsg Hrun Hpoll.
  constructor; rewrite ?Hth, ?Hmsg, ?Hrun, ?Hpoll; try reflexivity.
  intros k Hk. exists "in_progress". split; [|discriminate].
  destruct k as [|[|k]]; [reflexivity | reflexivity | lia].
Qed.

(** X5.  In the later revision a failing crawl does not stop the cycle.
    Whatever the crawl service replies to the two requests, when the read
    returns a trigger and the assistant calls and the writes succeed, the
    cycle completes with its three writes, and the prompt it posts is
    built from the two texts [crawl] returned, a failure string in the
    place of the pages of a crawl that failed. *)
Theorem later_cycle_survives_crawl_failure :
  forall env w t thread run_id n fuel result,
    select_error env = None ->
    select_queued (store w) = [t] ->
    AssistantRuns env w thread run_id n ->
    n < fuel ->
    listing_result env = Returns result ->
    WritesSucceed env ->
    let text1 := fst (later_crawl_result (crawl_reply env (crawls w))) in
    let text2 := fst (later_crawl_result (crawl_reply env (S (crawls w)))) in
    (exists w',
       Later.run env fuel w = (Done tt, w') /\
       store w' = assessed t result "Assessment stored successfully" (store w) /\
       exists evs,
         trace w' = (trace w ++ evs)%list /\
         In (MessageCreate thread "user" (prompt t text1 text2)) evs /\
         store_writes evs
         = [InsertReport (report_of t result);
            InsertAudit (audit_of t "Assessment stored successfully");
            UpdateStatus (Trigger.id t) "complete"]) /\
    (forall e,
       crawl_reply env (crawls w) = Throws e ->
       text1 = "Crawl failed: exception thrown.") /\
    (forall e,
       crawl_reply env (S (crawls w)) = Throws e ->
       text2 = "Crawl failed: exception thrown.").
Proof.
  intros env w t thread run_id n fuel result Hread Hq Hassist Hfuel Hlist
    Hwrites text1 text2.
  split; [|split].
  - eexists. split; [|split].
    + exact (Later_run_any_crawl env w t thread run_id n fuel Hread Hq Hassist
               Hfuel result Hlist Hwrites).
    + reflexivity.
    + eexists. split; [reflexivity|]. split.
      * apply in_or_app. right. apply in_or_app. left.
        unfold assistant_events. cbn [app]. right. left. reflexivity.
      * rewrite !store_writes_app, store_writes_later_crawl_events,
          store_writes_assistant_events. reflexivity.
  - intros e He. subst text1. rewrite He. reflexivity.
  - intros e He. subst text2. rewrite He. reflexivity.
Qed.

(** The theorem at the example with the crawl service out of reach. *)
Lemma later_cycle_survives_crawl_failure_witness :
  exists w',
    Later.run unreachable_env 3 example_world = (Done tt, w') /\
    store w'
    = assessed acme (JStr "REPORT") "Assessment stored successfully"
        (store example_world) /\
    exists evs,
      trace w' = (trace example_world ++ evs)%list /\
      In (MessageCreate "thread_1" "user"
            (prompt acme "Crawl failed: exception thrown."
               "Crawl failed: exception thrown."))
        evs /\
      store_writes evs
      = [InsertReport (report_of acme (JStr "REPORT"));
         InsertAudit (audit_of acme "Assessment stored successfully");
         UpdateStatus (Trigger.id acme) "complete"].
Proof.
  refine (proj1 (later_cycle_survives_crawl_failure unreachable_env
                   example_world acme "thread_1" "run_1" 2 3 (JStr "REPORT")
                   eq_refl eq_refl
                   (example_assistant_runs unreachable_env eq_refl eq_refl
                      eq_refl eq_refl)
                   _ eq_refl example_writes_succeed)).
  lia.
Defined.

(* ===================================================================== *)
(** ** A listing that cannot be read *)
(* ===================================================================== *)

Lemma listing_result_no_message env messages :
  messages_reply env = Returns messages ->
  get_prop messages "data" = Returns (JArr []) ->
  exists e, listing_result env = Throws e.
Proof.
  intros Hm Hd. unfold listing_result, first_message_text.
  rewrite Hm. cbn [bind Monad_Result]. rewrite Hd. eexists. reflexivity.
Qed.

(** X6.  When the message listing throws, or holds no message (so that
    reading [messages.data[0].content] throws), the cycle ends before its
    write phase: no write is sent and the store is as it was, so the
    trigger stays queued.  [src/index.js] ends with the error; the later
    revision catches it, logs it and returns. *)
Theorem unreadable_listing_writes_nothing :
  forall env w t thread run_id n fuel e,
    select_error env = None ->
    select_queued (store w) = [t] ->
    AssistantRuns env w thread run_id n ->
    n < fuel ->
    listing_result env = Throws e ->
    (exists w',
       Later.run env fuel w = (Done tt, w') /\
       store w' = store w /\
       exists evs,
         trace w' = (trace w ++ evs)%list /\
         store_writes evs = [] /\ In (write_failed_line e) evs) /\
    (forall text1 text2,
       plain_crawl_result (crawl_reply env (crawls w)) = Returns text1 ->
       plain_crawl_result (crawl_reply env (S (crawls w))) = Returns text2 ->
       exists w',
         Index.run env fuel w = (Raised e, w') /\
         store w' = store w /\
         exists evs,
           trace w' = (trace w ++ evs)%list /\ store_writes evs = []) /\
    (forall err,
       messages_reply env = Throws err -> listing_result env = Throws err) /\
    (forall messages,
       messages_reply env = Returns messages ->
       get_prop messages "data" = Returns (JArr []) ->
       exists err, listing_result env = Throws err).
Proof.
  intros env w t thread run_id n fuel e Hread Hq Hassist Hfuel Hlist.
  split; [|split; [|split]].
  - eexists. split; [|split].
    + exact (Later_run_listing_throws env w t thread run_id n fuel Hread Hq
               Hassist Hfuel e Hlist).
    + reflexivity.
    + eexists. split; [reflexivity|]. split.
      * rewrite !store_writes_app, store_writes_later_crawl_events,
          store_writes_assistant_events. reflexivity.
      * apply in_or_app. right. apply in_or_app. right. left. reflexivity.
  - intros text1 text2 H1 H2. eexists. split; [|split].
    + exact (Index_run_listing_throws env w t thread run_id n fuel Hread Hq
               Hassist Hfuel text1 text2 e H1 H2 Hlist).
    + reflexivity.
    + eexists. split; [reflexivity|].
      rewrite !store_writes_app, store_writes_assistant_events. reflexivity.
  - intros err Hm. unfold listing_result. rewrite Hm. reflexivity.
  - apply listing_result_no_message.
Qed.

(** The theorem at the example with an empty listing. *)
Lemma unreadable_listing_writes_nothing_witness :
  exists w',
    Later.run empty_listing_env 3 example_world = (Done tt, w') /\
    store w' = store example_world /\
    exists evs,
      trace w' = (trace example_world ++ evs)%list /\
      store_writes evs = [] /\
      In (write_failed_line (TypeError "cannot read property content")) evs.
Proof.
  refine (proj1 (unreadable_listing_writes_nothing empty_listing_env
                   example_world acme "thread_1" "run_1" 2 3
                   (TypeError "cannot read property content")
                   eq_refl eq_refl
                   (example_assistant_runs empty_listing_env eq_refl eq_refl
                      eq_refl eq_refl)
                   _ eq_refl)).
  lia.
Defined.

(* ===================================================================== *)
(** ** After the cycle: what the next read returns *)
(* ===================================================================== *)

Lemma set_status_complete_not_queued x :
  is_queued (set_status "complete" x) = false.
Proof. reflexivity. Qed.

(** After the status update the queued rows are the queued rows with
    another id. *)
Lemma queued_after_update i s :
  filter is_queued (CompanyAssessmentTrigger (update_status i "complete" s))
  = filter (fun x => negb (Trigger.id x =? i)%Z)
      (filter is_queued (CompanyAssessmentTrigger s)).
Proof.
  unfold update_status. cbn [CompanyAssessmentTrigger].
  induction (CompanyAssessmentTrigger s) as [|x rows IH]; [reflexivity|].
  cbn [map filter]. destruct (Z.eqb_spec (Trigger.id x) i) as [Hi|Hi].
  - rewrite set_status_complete_not_queued.
    destruct (is_queued x); [|exact IH].
    cbn [filter]. destruct (Z.eqb_spec (Trigger.id x) i); [|contradiction].
    exact IH.
  - destruct (is_queued x); [|exact IH].
    cbn [filter]. destruct (Z.eqb_spec (Trigger.id x) i); [contradiction|].
    cbn [negb]. rewrite IH. reflexivity.
Qed.

Lemma select_after_update i s x :
  In x (select_queued (update_status i "complete" s)) -> Trigger.id x <> i.
Proof.
  unfold select_queued. rewrite queued_after_update. intros Hin.
  assert (Hf : In x (filter (fun y => negb (Trigger.id y =? i)%Z)
                       (filter is_queued (CompanyAssessmentTrigger s)))).
  { destruct (filter _ (filter _ _)) as [|y l]; [contradiction|].
    cbn [firstn] in Hin. destruct Hin as [->|[]]. left. reflexivity. }
  apply filter_In in Hf. destruct Hf as [_ Hne].
  destruct (Z.eqb_spec (Trigger.id x) i); [discriminate | assumption].
Qed.

Lemma select_after_update_only i s t :
  filter is_queued (CompanyAssessmentTrigger s) = [t] ->
  Trigger.id t = i ->
  select_queued (update_status i "complete" s) = [].
Proof.
  intros Honly Hi. unfold select_queued. rewrite queued_after_update, Honly.
  cbn [filter]. rewrite Hi, Z.eqb_refl. reflexivity.
Qed.

Lemma assessed_not_selected_again s t result details :
  not_selected_again s (assessed t result details s) t.
Proof.
  split.
  - apply (select_after_update (Trigger.id t) s).
  - intros Honly.
    exact (select_after_update_only (Trigger.id t) s t Honly eq_refl).
Qed.

(** X7.  After a cycle in which every call succeeds, the processed
    trigger is not read again: the next read of queued triggers returns no
    row with its id, and returns nothing when it was the only queued
    trigger. *)
Theorem processed_trigger_not_selected_again :
  forall env w t ps1 ps2 thread run_id n result fuel,
    CallsSucceed env w t ps1 ps2 thread run_id n result ->
    WritesSucceed env ->
    n < fuel ->
    not_selected_again (store w) (store (snd (Index.run env fuel w))) t /\
    not_selected_again (store w) (store (snd (Later.run env fuel w))) t /\
    not_selected_again (store w) (store (snd (Earliest.run env fuel w))) t.
Proof.
  intros env w t ps1 ps2 thread run_id n result fuel Hcalls Hwrites Hfuel.
  rewrite (Index_run_success env w t ps1 ps2 thread run_id n result Hcalls
             fuel Hfuel Hwrites).
  rewrite (Later_run_success env w t ps1 ps2 thread run_id n result Hcalls
             fuel Hfuel Hwrites).
  rewrite (Earliest_run_success env w t ps1 ps2 thread run_id n result Hcalls
             fuel Hfuel Hwrites).
  cbn [snd store]. split; [|split].
  - apply (assessed_not_selected_again (store w) t result "Report stored").
  - apply (assessed_not_selected_again (store w) t result
             "Assessment stored successfully").
  - apply (assessed_not_selected_again (store w) t result "Report stored").
Qed.

(** The theorem at the example of the specification. *)
Lemma processed_trigger_not_selected_again_witness :
  not_selected_again (store example_world)
    (store (snd (Index.run example_env 3 example_world))) acme.
Proof.
  refine (proj1 (processed_trigger_not_selected_again example_env
                   example_world acme [home_page "https://acme.vc"]
                   [home_page "https://widget.co"] "thread_1" "run_1" 2
                   (JStr "REPORT") 3 example_calls_succeed
                   example_writes_succeed _)).
  lia.
Defined.

(* ===================================================================== *)
(** ** What [CallsSucceed] gives the general lemmas *)
(* ===================================================================== *)

Section FromCallsSucceed.
Variable env : Env.
Variable w : World.
Variable t : Trigger.t.
Variables ps1 ps2 : list Page.t.
Variables thread run_id : string.
Variable n : nat.
Variable result : jsval.
Hypothesis Hcalls : CallsSucceed env w t ps1 ps2 thread run_id n result.

Lemma calls_succeed_assistant : AssistantRuns env w thread run_id n.
Proof. destruct Hcalls. constructor; assumption. Qed.

Lemma calls_succeed_listing : listing_result env = Returns result.
Proof.
  destruct Hcalls as [_ _ _ _ _ _ _ _ _ [messages [Hm Ht]]].
  unfold listing_result. rewrite Hm. exact Ht.
Qed.

Lemma calls_succeed_investor_crawl :
  plain_crawl_result (crawl_reply env (crawls w)) = Returns (pages_text ps1).
Proof.
  destruct Hcalls as [_ _ [d [elems [Hc [Htop Hps]]]] _ _ _ _ _ _ _].
  rewrite Hc. exact (plain_crawl_result_top_level d elems ps1 Htop Hps).
Qed.

Lemma calls_succeed_company_crawl :
  plain_crawl_result (crawl_reply env (S (crawls w)))
  = Returns (pages_text ps2).
Proof.
  destruct Hcalls as [_ _ _ [d [elems [Hc [Htop Hps]]]] _ _ _ _ _ _].
  rewrite Hc. exact (plain_crawl_result_top_level d elems ps2 Htop Hps).
Qed.
End FromCallsSucceed.

(* ===================================================================== *)
(** ** The audit insert failing in the earliest revision *)
(* ===================================================================== *)

(** X8.  In the earliest revision the audit insert is the last write.
    When every call before it succeeds and it throws, the cycle ends with
    the error after the report row is stored and the trigger is set to
    [complete]: no audit row is written, and the trigger is not read
    again, so no later cycle makes up for the missing audit row. *)
Theorem earliest_audit_failure_leaves_trigger_complete :
  forall env w t ps1 ps2 thread run_id n result fuel e,
    CallsSucceed env w t ps1 ps2 thread run_id n result ->
    insert_report_reply env = Returns Stored ->
    update_status_reply env = Returns Stored ->
    insert_audit_reply env = Throws e ->
    n < fuel ->
    exists w',
      Earliest.run env fuel w = (Raised e, w') /\
      CompanyAssessments (store w')
      = (CompanyAssessments (store w) ++ [report_of t result])%list /\
      AuditLogs (store w') = AuditLogs (store w) /\
      In (set_status "complete" t) (CompanyAssessmentTrigger (store w')) /\
      not_selected_again (store w) (store w') t.
Proof.
  intros env w t ps1 ps2 thread run_id n result fuel e Hcalls Hr Hu Ha Hfuel.
  eexists. split; [|split; [|split; [|split]]].
  - exact (Earliest_run_audit_throws env w t thread run_id n fuel
             (read_ok _ _ _ _ _ _ _ _ _ Hcalls)
             (one_queued _ _ _ _ _ _ _ _ _ Hcalls)
             (calls_succeed_assistant _ _ _ _ _ _ _ _ _ Hcalls) Hfuel
             (pages_text ps1) (pages_text ps2) result e
             (calls_succeed_investor_crawl _ _ _ _ _ _ _ _ _ Hcalls)
             (calls_succeed_company_crawl _ _ _ _ _ _ _ _ _ Hcalls)
             (calls_succeed_listing _ _ _ _ _ _ _ _ _ Hcalls) Hr Hu Ha).
  - reflexivity.
  - reflexivity.
  - cbn [store].
    apply (update_status_In (insert_report (report_of t result) (store w)) t).
    exact (proj1 (select_queued_In _ _ (one_queued _ _ _ _ _ _ _ _ _ Hcalls))).
  - cbn [store]. split.
    + apply (select_after_update (Trigger.id t)
               (insert_report (report_of t result) (store w))).
    + intros Honly.
      exact (select_after_update_only (Trigger.id t)
               (insert_report (report_of t result) (store w)) t Honly eq_refl).
Qed.

(** The theorem at the example with the audit insert failing. *)
Lemma earliest_audit_failure_leaves_trigger_complete_witness :
  exists w',
    Earliest.run audit_fails_env 3 example_world = (Raised insert_error, w') /\
    CompanyAssessments (store w')
    = (CompanyAssessments (store example_world)
       ++ [report_of acme (JStr "REPORT")])%list /\
    AuditLogs (store w') = AuditLogs (store example_world) /\
    In (set_status "complete" acme) (CompanyAssessmentTrigger (store w')) /\
    not_selected_again (store example_world) (store w') acme.
Proof.
  refine (earliest_audit_failure_leaves_trigger_complete audit_fails_env
            example_world acme [home_page "https://acme.vc"]
            [home_page "https://widget.co"] "thread_1" "run_1" 2
            (JStr "REPORT") 3 insert_error audit_fails_calls_succeed
            eq_refl eq_refl eq_refl _).
  lia.
Defined.

(* ===================================================================== *)
(** ** The retry after a failed audit insert *)
(* ===================================================================== *)

(** X9.  In [src/index.js] and in the later revision, a cycle whose audit
    insert threw is followed by a full retry: when every call of a later
    cycle on the store it left succeeds, that cycle inserts a second
    report row for the same trigger next to the first, and the one audit
    row. *)
Theorem retry_duplicates_report :
  forall env1 w t ps1 ps2 thread run_id n result1 fuel1 e,
    CallsSucceed env1 w t ps1 ps2 thread run_id n result1 ->
    insert_report_reply env1 = Returns Stored ->
    insert_audit_reply env1 = Throws e ->
    n < fuel1 ->
    (forall env2 ps1' ps2' thread' run_id' n' result2 fuel2,
       CallsSucceed env2 (snd (Later.run env1 fuel1 w)) t ps1' ps2' thread'
         run_id' n' result2 ->
       WritesSucceed env2 ->
       n' < fuel2 ->
       exists w2,
         Later.run env2 fuel2 (snd (Later.run env1 fuel1 w)) = (Done tt, w2) /\
         CompanyAssessments (store w2)
         = (CompanyAssessments (store w)
            ++ [report_of t result1; report_of t result2])%list /\
         AuditLogs (store w2)
         = (AuditLogs (store w)
            ++ [audit_of t "Assessment stored successfully"])%list) /\
    (forall env2 ps1' ps2' thread' run_id' n' result2 fuel2,
       CallsSucceed env2 (snd (Index.run env1 fuel1 w)) t ps1' ps2' thread'
         run_id' n' result2 ->
       WritesSucceed env2 ->
       n' < fuel2 ->
       exists w2,
         Index.run env2 fuel2 (snd (Index.run env1 fuel1 w)) = (Done tt, w2) /\
         CompanyAssessments (store w2)
         = (CompanyAssessments (store w)
            ++ [report_of t result1; report_of t result2])%list /\
         AuditLogs (store w2)
         = (AuditLogs (store w) ++ [audit_of t "Report stored"])%list).
Proof.
  intros env1 w t ps1 ps2 thread run_id n result1 fuel1 e Hcalls Hr Ha Hfuel.
  rewrite (Later_run_audit_throws env1 w t ps1 ps2 thread run_id n result1
             Hcalls fuel1 Hfuel e Hr Ha).
  rewrite (Index_run_audit_throws env1 w t ps1 ps2 thread run_id n result1
             Hcalls fuel1 Hfuel e Hr Ha).
  cbn [snd]. split.
  - intros env2 ps1' ps2' thread' run_id' n' result2 fuel2 Hcalls2 Hw2 Hfuel2.
    eexists. split; [|split].
    + exact (Later_run_success env2 _ t ps1' ps2' thread' run_id' n' result2
               Hcalls2 fuel2 Hfuel2 Hw2).
    + cbn [store]. unfold update_status, insert_audit, insert_report.
      cbn [CompanyAssessments]. rewrite <- app_assoc. reflexivity.
    + reflexivity.
  - intros env2 ps1' ps2' thread' run_id' n' result2 fuel2 Hcalls2 Hw2 Hfuel2.
    eexists. split; [|split].
    + exact (Index_run_success env2 _ t ps1' ps2' thread' run_id' n' result2
               Hcalls2 fuel2 Hfuel2 Hw2).
    + cbn [store]. unfold update_status, insert_audit, insert_report.
      cbn [CompanyAssessments]. rewrite <- app_assoc. reflexivity.
    + reflexivity.
Qed.

Lemma retry_calls_succeed :
  CallsSucceed example_env (snd (Later.run audit_fails_env 3 example_world))
    acme [home_page "https://widget.co"] [home_page "https://widget.co"]
    "thread_1" "run_1" 0 (JStr "REPORT").
Proof.
  constructor; try (vm_compute; reflexivity).
  - exists (JObj [("pages", JArr [home "https://widget.co"])]),
      [home "https://widget.co"].
    split; [vm_compute; reflexivity|]. split.
    + eexists. split; reflexivity.
    + repeat constructor.
  - exists (JObj [("pages", JArr [home "https://widget.co"])]),
      [home "https://widget.co"].
    split; [vm_compute; reflexivity|]. split.
    + eexists. split; reflexivity.
    + repeat constructor.
  - intros k Hk. lia.
  - exists (listing "REPORT"). split; reflexivity.
Qed.

(** The theorem at the example: the audit insert fails in one cycle and
    every call succeeds in the next. *)
Lemma retry_duplicates_report_witness :
  exists w2,
    Later.run example_env 1 (snd (Later.run audit_fails_env 3 example_world))
    = (Done tt, w2) /\
    CompanyAssessments (store w2)
    = (CompanyAssessments (store example_world)
       ++ [report_of acme (JStr "REPORT"); report_of acme (JStr "REPORT")])%list /\
    AuditLogs (store w2)
    = (AuditLogs (store example_world)
       ++ [audit_of acme "Assessment stored successfully"])%list.
Proof.
  assert (Hfuel1 : 2 < 3) by lia.
  assert (Hfuel2 : 0 < 1) by lia.
  exact (proj1 (retry_duplicates_report audit_fails_env example_world acme
                  [home_page "https://acme.vc"] [home_page "https://widget.co"]
                  "thread_1" "run_1" 2 (JStr "REPORT") 3 insert_error
                  audit_fails_calls_succeed eq_refl eq_refl Hfuel1)
           example_env [home_page "https://widget.co"]
           [home_page "https://widget.co"] "thread_1" "run_1" 0
           (JStr "REPORT") 1 retry_calls_succeed example_writes_succeed
           Hfuel2).
Defined.

(* ===================================================================== *)
(** ** The wait, with retrievals that may throw *)
(* ===================================================================== *)

Section AnyWait.
Variable env : Env.
Variables thread run_id : string.

(** The wait ends at the first reply that ends it, given enough
    iterations. *)
Lemma poll_until_completed_ends n : forall fuel w,
  n < fuel ->
  (forall k, k < n -> ends_wait (poll_reply env (polls w + k)) = false) ->
  ends_wait (poll_reply env (polls w + n)) = true ->
  poll_until_completed env fuel thread run_id w
  = (wait_outcome (poll_reply env (polls w + n)),
     mkWorld (store w) (trace w ++ poll_events thread run_id n) (crawls w)
       (polls w + S n)).
Proof.
  induction n as [|n IH]; intros fuel w Hlt Hbefore Hend;
    (destruct fuel as [|fuel]; [lia|]); rewrite poll_until_completed_S; exec.
  - rewrite Nat.add_0_r in *.
    destruct (poll_reply env (polls w)) as [s|e]; cbn [ends_wait] in Hend.
    + rewrite Hend. cbn [wait_outcome]. exec. rewrite Nat.add_1_r. reflexivity.
    + cbn [wait_outcome]. rewrite Nat.add_1_r. reflexivity.
  - pose proof (Hbefore 0 ltac:(lia)) as H0. rewrite Nat.add_0_r in H0.
    destruct (poll_reply env (polls w)) as [s|e]; cbn [ends_wait] in H0;
      [|discriminate H0].
    rewrite H0. exec.
    rewrite IH; cbn [polls store trace crawls].
    + rewrite Nat.add_succ_comm. flat. f_equal. f_equal. lia.
    + lia.
    + intros k Hk. rewrite Nat.add_succ_comm. apply Hbefore. lia.
    + rewrite Nat.add_succ_comm. exact Hend.
Qed.

(** Within [fuel] iterations the wait either meets a reply that ends it
    or is still going on. *)
Lemma poll_ends_or_spinning fuel : forall w,
  (exists n, n < fuel /\ ends_wait (poll_reply env (polls w + n)) = true) \/
  fst (poll_until_completed env fuel thread run_id w) = Spinning.
Proof.
  induction fuel as [|fuel IH]; intros w.
  - right. reflexivity.
  - destruct (ends_wait (poll_reply env (polls w))) eqn:Hnow.
    + left. exists 0. rewrite Nat.add_0_r. split; [lia | exact Hnow].
    + destruct (IH (mkWorld (store w)
                      ((trace w ++ [RunRetrieve thread run_id]) ++ [Sleep 2000])
                      (crawls w) (S (polls w)))) as [[n [Hn Hs]]|Hspin].
      * left. exists (S n). cbn [polls] in Hs.
        rewrite Nat.add_succ_comm in Hs. split; [lia | exact Hs].
      * right. rewrite poll_until_completed_S. exec.
        destruct (poll_reply env (polls w)) as [s|e]; cbn [ends_wait] in Hnow;
          [|discriminate Hnow].
        rewrite Hnow. exact Hspin.
Qed.

(** A reply that ends the wait at retrieval [n] ends it within [S n]
    iterations. *)
Lemma poll_ends_within n : forall w,
  ends_wait (poll_reply env (polls w + n)) = true ->
  fst (poll_until_completed env (S n) thread run_id w) <> Spinning.
Proof.
  induction n as [|n IH]; intros w Hend; rewrite poll_until_completed_S; exec.
  - rewrite Nat.add_0_r in Hend.
    destruct (poll_reply env (polls w)) as [s|e]; cbn [ends_wait] in Hend;
      [rewrite Hend|]; discriminate.
  - destruct (poll_reply env (polls w)) as [s|e]; [|discriminate].
    destruct (String.eqb s "completed"); [discriminate|].
    apply IH. cbn [polls]. rewrite Nat.add_succ_comm. exact Hend.
Qed.
End AnyWait.

(** X10.  Whatever the retrievals of the run reply, the wait ends, for
    some number of iterations, exactly when some retrieval reports
    [completed] or throws.  It ends at the first such retrieval, having
    retrieved the status once more than it slept for 2000 ms: with a
    return when the status is [completed], with the error when the
    retrieval throws. *)
Theorem wait_ends_at_completed_or_throw :
  forall env thread run_id w,
    ((exists fuel,
        fst (poll_until_completed env fuel thread run_id w) <> Spinning) <->
     (exists n, ends_wait (poll_reply env (polls w + n)) = true)) /\
    (forall n fuel,
       n < fuel ->
       (forall k, k < n -> ends_wait (poll_reply env (polls w + k)) = false) ->
       ends_wait (poll_reply env (polls w + n)) = true ->
       poll_until_completed env fuel thread run_id w
       = (wait_outcome (poll_reply env (polls w + n)),
          mkWorld (store w) (trace w ++ poll_events thread run_id n)
            (crawls w) (polls w + S n))).
Proof.
  intros env thread run_id w. split; [split|].
  - intros [fuel Hends].
    destruct (poll_ends_or_spinning env thread run_id fuel w)
      as [[n [_ Hn]]|Hspin]; [exists n; exact Hn | contradiction].
  - intros [n Hn]. exists (S n).
    exact (poll_ends_within env thread run_id n w Hn).
  - intros n fuel. apply poll_until_completed_ends.
Qed.

(** The theorem at a run that is pending once and whose next retrieval
    throws. *)
Lemma wait_ends_at_completed_or_throw_witness :
  poll_until_completed poll_fails_env 5 "thread_1" "run_1" example_world
  = (Raised poll_error,
     mkWorld (store example_world)
       [RunRetrieve "thread_1" "run_1"; Sleep 2000;
        RunRetrieve "thread_1" "run_1"]
       0 2).
Proof.
  assert (Hfuel : 1 < 5) by lia.
  refine (proj2 (wait_ends_at_completed_or_throw poll_fails_env "thread_1"
                   "run_1" example_world) 1 5 Hfuel _ eq_refl).
  intros k Hk. destruct k as [|k]; [reflexivity | lia].
Defined.

(* ===================================================================== *)
(** ** A page list with a hole *)
(* ===================================================================== *)

Lemma map_result_null elems :
  In JNull elems -> exists e, map_result page_block elems = Throws e.
Proof.
  induction elems as [|x elems IH]; intros Hin; [contradiction|].
  cbn [map_result bind ret Monad_Result].
  destruct Hin as [->|Hin].
  - eexists. reflexivity.
  - destruct (page_block x) as [y|e]; [|eexists; reflexivity].
    destruct (IH Hin) as [e He]. rewrite He. eexists. reflexivity.
Qed.

Lemma format_pages_null elems :
  In JNull elems -> exists e, format_pages (JArr elems) = Throws e.
Proof.
  intros Hin. destruct (map_result_null elems Hin) as [e He].
  unfold format_pages. cbn [bind Monad_Result]. rewrite He.
  eexists. reflexivity.
Qed.

(** X11.  A [null] among the pages of a response loses the whole crawl:
    reading its [title] throws, so [crawl] of [src/index.js] and of the
    earliest revision throws, and [crawl] of the later revision returns
    ["Crawl failed: exception thrown."] with none of the other pages'
    text. *)
Theorem null_page_loses_crawl :
  forall env url w d elems,
    crawl_reply env (crawls w) = Returns d ->
    top_level_pages d elems ->
    In JNull elems ->
    fst (Later.crawl env url w) = Done "Crawl failed: exception thrown." /\
    (exists e, fst (Index.crawl env url w) = Raised e) /\
    (exists e, fst (Earliest.crawl env url w) = Raised e).
Proof.
  intros env url w d elems Hreply [fields [-> Hl]] Hin.
  destruct (format_pages_null elems Hin) as [e He].
  split; [|split].
  - rewrite Later_crawl_eq, Hreply. cbn [fst].
    unfold later_crawl_result. cbn [get_prop]. rewrite Hl.
    unfold found_pages. cbn [js_or truthy isArray negb]. rewrite He.
    reflexivity.
  - exists e. rewrite Index_crawl_eq, Hreply. cbn [fst].
    unfold plain_crawl_result. cbn [bind Monad_Result get_prop].
    rewrite Hl, He. reflexivity.
  - exists e. rewrite Earliest_crawl_eq, Hreply. cbn [fst].
    unfold plain_crawl_result. cbn [bind Monad_Result get_prop].
    rewrite Hl, He. reflexivity.
Qed.

(** The theorem at a response with a page and a [null]. *)
Lemma null_page_loses_crawl_witness :
  fst (Later.crawl null_page_env "https://acme.vc" example_world)
  = Done "Crawl failed: exception thrown.".
Proof.
  refine (proj1 (null_page_loses_crawl null_page_env "https://acme.vc"
                   example_world
                   (JObj [("pages", JArr [home "https://acme.vc"; JNull])])
                   [home "https://acme.vc"; JNull] eq_refl _ _)).
  - exists [("pages", JArr [home "https://acme.vc"; JNull])].
    split; reflexivity.
  - right. left. reflexivity.
Defined.

(* ===================================================================== *)
(** ** The calls of a cycle, in order *)
(* ===================================================================== *)

(** X12.  In a cycle in which every call succeeds the calls are made one
    after the other in this order: the read; the crawl of the investor
    site, then of the company URL; the thread, one [user] message whose
    content is the prompt built from the trigger and the two crawled
    texts, the run for the configured assistant; the retrievals of the
    run, 2000 ms apart, up to the first [completed]; the message listing;
    the three writes.  The report row carries the listing's
    [data[0].content[0].text.value] unparsed.  Two crawl replies and one
    more run status than the wait slept are consumed. *)
Theorem successful_cycle_calls :
  forall env w t ps1 ps2 thread run_id n result fuel,
    CallsSucceed env w t ps1 ps2 thread run_id n result ->
    WritesSucceed env ->
    n < fuel ->
    Index.run env fuel w
    = (Done tt,
       mkWorld (assessed t result "Report stored" (store w))
         (trace w
          ++ [SelectQueued;
              ConsoleLog [JStr "Processing trigger:"; JNum (Trigger.id t)]]
          ++ work_events env urls_body t ps1 ps2 thread run_id n
          ++ [InsertReport (report_of t result);
              InsertAudit (audit_of t "Report stored");
              UpdateStatus (Trigger.id t) "complete";
              ConsoleLog
                [JStr ("Assessment complete for: " ++ Trigger.company_name t)]])
         (S (S (crawls w))) (polls w + S n)) /\
    Later.run env fuel w
    = (Done tt,
       mkWorld (assessed t result "Assessment stored successfully" (store w))
         (trace w
          ++ [SelectQueued;
              ConsoleLog
                [JStr ("🚀 Processing trigger: "
                       ++ Z_to_string (Trigger.id t))]]
          ++ work_events env urls_body t ps1 ps2 thread run_id n
          ++ [InsertReport (report_of t result);
              InsertAudit (audit_of t "Assessment stored successfully");
              UpdateStatus (Trigger.id t) "complete";
              ConsoleLog
                [JStr ("✅ Assessment completed: " ++ Trigger.company_name t)]])
         (S (S (crawls w))) (polls w + S n)) /\
    Earliest.run env fuel w
    = (Done tt,
       mkWorld (assessed t result "Report stored" (store w))
         (trace w
          ++ [SelectQueued]
          ++ work_events env url_body t ps1 ps2 thread run_id n
          ++ [InsertReport (report_of t result);
              UpdateStatus (Trigger.id t) "complete";
              InsertAudit (audit_of t "Report stored")])
         (S (S (crawls w))) (polls w + S n)).
Proof.
  intros env w t ps1 ps2 thread run_id n result fuel Hcalls Hwrites Hfuel.
  split; [|split].
  - exact (Index_run_success env w t ps1 ps2 thread run_id n result Hcalls
             fuel Hfuel Hwrites).
  - exact (Later_run_success env w t ps1 ps2 thread run_id n result Hcalls
             fuel Hfuel Hwrites).
  - exact (Earliest_run_success env w t ps1 ps2 thread run_id n result Hcalls
             fuel Hfuel Hwrites).
Qed.

(** The theorem at the example of the specification. *)
Lemma successful_cycle_calls_witness :
  Earliest.run example_env 3 example_world
  = (Done tt,
     mkWorld
       (assessed acme (JStr "REPORT") "Report stored" (store example_world))
       (trace example_world
        ++ [SelectQueued]
        ++ work_events example_env url_body acme
             [home_page "https://acme.vc"] [home_page "https://widget.co"]
             "thread_1" "run_1" 2
        ++ [InsertReport (report_of acme (JStr "REPORT"));
            UpdateStatus (Trigger.id acme) "complete";
            InsertAudit (audit_of acme "Report stored")])
       (S (S (crawls example_world))) (polls example_world + 3)).
Proof.
  assert (Hfuel : 2 < 3) by lia.
  exact (proj2 (proj2 (successful_cycle_calls example_env example_world acme
                         [home_page "https://acme.vc"]
                         [home_page "https://widget.co"] "thread_1" "run_1" 2
                         (JStr "REPORT") 3 example_calls_succeed
                         example_writes_succeed Hfuel))).
Defined.

(* ===================================================================== *)
(** ** The constants of the calls *)
(* ===================================================================== *)

#[export] Hint Extern 1 (call_constants _ _) =>
  (cbn [call_constants]; first [exact I | reflexivity]) : emits.

Lemma crawl_call_constants env url :
  emits (call_constants env) (Earliest.crawl env url) /\
  emits (call_constants env) (Index.crawl env url) /\
  emits (call_constants env) (Later.crawl env url).
Proof.
  split; [|split].
  - unfold Earliest.crawl. emits_walk.
  - unfold Index.crawl. emits_walk.
  - unfold Later.crawl. emits_walk; apply emits_console_error; exact I.
Qed.

Ltac constants_walk :=
  emits_walk;
  try (first [ apply (proj1 (crawl_call_constants _ _))
             | apply (proj1 (proj2 (crawl_call_constants _ _)))
             | apply (proj2 (proj2 (crawl_call_constants _ _))) ]).

(** X13.  However a cycle goes, every crawl request goes to the
    configured crawl endpoint, every message is posted with the role
    [user], every run is started for the configured assistant, every
    pause of the wait lasts 2000 ms, and every status update sets the
    status [complete]. *)
Theorem cycle_call_constants :
  forall env fuel w,
    extends (call_constants env) w (snd (Index.run env fuel w)) /\
    extends (call_constants env) w (snd (Later.run env fuel w)) /\
    extends (call_constants env) w (snd (Earliest.run env fuel w)).
Proof.
  intros env fuel w. split; [|split].
  - unfold Index.run. after_select t rest Hq;
      (apply emits_apply; [constants_walk | close_extends]).
  - unfold Later.run. after_select t rest Hq;
      (apply emits_apply; [constants_walk | close_extends]).
  - unfold Earliest.run. after_select t rest Hq;
      (apply emits_apply; [constants_walk | close_extends]).
Qed.

(* ===================================================================== *)
(** ** A failed read in the earliest revision *)
(* ===================================================================== *)

(** X14.  The earliest revision does not look at the [error] of the read.
    When the read fails, [data] is [null] and the cycle returns right
    after the read without a console line: it makes no other call, leaves
    the store as it was, and ends as a cycle that found no queued trigger
    ends. *)
Theorem earliest_read_error_is_silent :
  forall env fuel w e,
    select_error env = Some e ->
    Earliest.run env fuel w = (Done tt, after_read w) /\
    (forall env',
       select_error env' = None ->
       select_queued (store w) = [] ->
       Earliest.run env' fuel w = Earliest.run env fuel w).
Proof.
  intros env fuel w e Hread.
  assert (H : Earliest.run env fuel w = (Done tt, after_read w)).
  { unfold Earliest.run. exec. rewrite Hread. reflexivity. }
  split; [exact H|].
  intros env' Hread' Hq. rewrite H.
  unfold Earliest.run. exec. rewrite Hread'. exec. rewrite Hq. reflexivity.
Qed.

(** The theorem at the example with the read failing. *)
Lemma earliest_read_error_is_silent_witness :
  Earliest.run (with_select_error example_env read_error) 3 example_world
  = (Done tt, after_read example_world).
Proof.
  exact (proj1 (earliest_read_error_is_silent
                  (with_select_error example_env read_error) 3 example_world
                  read_error eq_refl)).
Defined.

(* ===================================================================== *)
(** ** An audit insert the store refuses *)
(* ===================================================================== *)

Lemma completed_without_audit_after w w' t r a evs :
  select_queued (store w) = [t] ->
  store w' = update_status (Trigger.id t) "complete" (insert_report r (store w)) ->
  trace w' = (trace w ++ evs)%list ->
  store_writes evs
  = [InsertReport r; InsertAudit a; UpdateStatus (Trigger.id t) "complete"] ->
  completed_without_audit w w' t r a.
Proof.
  intros Hq Hs Ht Hw. unfold completed_without_audit. rewrite Hs.
  split; [exists evs; split; assumption|].
  split; [reflexivity|]. split; [reflexivity|]. split.
  - apply (update_status_In (insert_report r (store w)) t).
    exact (proj1 (select_queued_In _ _ Hq)).
  - split.
    + apply (select_after_update (Trigger.id t) (insert_report r (store w))).
    + intros Honly.
      exact (select_after_update_only (Trigger.id t)
               (insert_report r (store w)) t Honly eq_refl).
Qed.

(** A trigger that ended complete was not left queued. *)
Lemma completed_not_left_queued w w' t r a a' :
  completed_without_audit w w' t r a -> ~ left_queued w w' t r a'.
Proof.
  intros [_ [_ [_ [_ [Hnot _]]]]] [_ [_ [_ [_ [_ [_ Hsel]]]]]].
  apply (Hnot t); [rewrite Hsel; left|]; reflexivity.
Qed.

(** C7, where the code departs from it.  A failed write does not throw:
    the client reports it by resolving to [{ error }], as the read shows,
    and [run] drops what its writes resolve to.  So when, after the
    report insert, the store refuses the audit insert, the cycle of
    [src/index.js] and of the later revision does not end there: the
    status update is sent all the same, the cycle returns, and the
    trigger is [complete] with its report row and without an audit row.
    It is not left queued and is not read again. *)
Theorem refused_audit_insert_completes_trigger :
  forall env w t ps1 ps2 thread run_id n result fuel err,
    CallsSucceed env w t ps1 ps2 thread run_id n result ->
    insert_report_reply env = Returns Stored ->
    insert_audit_reply env = Returns (Refused err) ->
    update_status_reply env = Returns Stored ->
    n < fuel ->
    (exists w',
       Index.run env fuel w = (Done tt, w') /\
       completed_without_audit w w' t (report_of t result)
         (audit_of t "Report stored") /\
       ~ left_queued w w' t (report_of t result) (audit_of t "Report stored")) /\
    (exists w',
       Later.run env fuel w = (Done tt, w') /\
       completed_without_audit w w' t (report_of t result)
         (audit_of t "Assessment stored successfully") /\
       ~ left_queued w w' t (report_of t result)
           (audit_of t "Assessment stored successfully")).
Proof.
  intros env w t ps1 ps2 thread run_id n result fuel err Hcalls Hr Ha Hu Hfuel.
  pose proof (read_ok _ _ _ _ _ _ _ _ _ Hcalls) as Hread.
  pose proof (one_queued _ _ _ _ _ _ _ _ _ Hcalls) as Hq.
  pose proof (calls_succeed_assistant _ _ _ _ _ _ _ _ _ Hcalls) as Hassist.
  pose proof (calls_succeed_listing _ _ _ _ _ _ _ _ _ Hcalls) as Hlist.
  split.
  - eexists. split; [|split].
    + exact (Index_run_audit_refused env w t thread run_id n fuel Hread Hq
               Hassist Hfuel (pages_text ps1) (pages_text ps2) result err
               (calls_succeed_investor_crawl _ _ _ _ _ _ _ _ _ Hcalls)
               (calls_succeed_company_crawl _ _ _ _ _ _ _ _ _ Hcalls)
               Hlist Hr Ha Hu).
    + eapply completed_without_audit_after;
        [exact Hq | reflexivity | reflexivity |].
      rewrite !store_writes_app, store_writes_assistant_events. reflexivity.
    + eapply completed_not_left_queued.
      eapply completed_without_audit_after;
        [exact Hq | reflexivity | reflexivity |].
      rewrite !store_writes_app, store_writes_assistant_events. reflexivity.
  - eexists. split; [|split].
    + exact (Later_run_audit_refused env w t thread run_id n fuel Hread Hq
               Hassist Hfuel result err Hlist Hr Ha Hu).
    + eapply completed_without_audit_after;
        [exact Hq | reflexivity | reflexivity |].
      rewrite !store_writes_app, store_writes_later_crawl_events,
        store_writes_assistant_events. reflexivity.
    + eapply completed_not_left_queued.
      eapply completed_without_audit_after;
        [exact Hq | reflexivity | reflexivity |].
      rewrite !store_writes_app, store_writes_later_crawl_events,
        store_writes_assistant_events. reflexivity.
Qed.

Lemma audit_refused_calls_succeed :
  CallsSucceed audit_refused_env example_world acme
    [home_page "https://acme.vc"] [home_page "https://widget.co"]
    "thread_1" "run_1" 2 (JStr "REPORT").
Proof.
  destruct example_calls_succeed. constructor; assumption.
Qed.

(** The theorem at the example with the store refusing the audit insert. *)
Lemma refused_audit_insert_completes_trigger_witness :
  exists w',
    Later.run audit_refused_env 3 example_world = (Done tt, w') /\
    completed_without_audit example_world w' acme
      (report_of acme (JStr "REPORT"))
      (audit_of acme "Assessment stored successfully") /\
    ~ left_queued example_world w' acme (report_of acme (JStr "REPORT"))
        (audit_of acme "Assessment stored successfully").
Proof.
  refine (proj2 (refused_audit_insert_completes_trigger audit_refused_env
                   example_world acme [home_page "https://acme.vc"]
                   [home_page "https://widget.co"] "thread_1" "run_1" 2
                   (JStr "REPORT") 3 refusal audit_refused_calls_succeed
                   eq_refl eq_refl eq_refl _)).
  lia.
Defined.

(** The same cycle evaluated: the trigger of the example ends [complete],
    with one report row and no audit row. *)
Example refused_audit_insert_example :
  store (snd (Later.run audit_refused_env 3 example_world))
  = mkStore [set_status "complete" acme] [report_of acme (JStr "REPORT")] [] /\
  store (snd (Index.run audit_refused_env 3 example_world))
  = mkStore [set_status "complete" acme] [report_of acme (JStr "REPORT")] [] /\
  store_writes (trace (snd (Index.run audit_refused_env 3 example_world)))
  = [InsertReport (report_of acme (JStr "REPORT"));
     InsertAudit (audit_of acme "Report stored");
     UpdateStatus 1 "complete"].
Proof. repeat split; vm_compute; reflexivity. Qed.
